(** * A Neural CDE training example (example/example.py), embedded in Rocq

    The script builds a vector-field network [CDEFunc], wraps it into a
    [NeuralCDE] model, generates a synthetic spiral dataset ([get_data]) and
    trains the model in [main].  Tensors carry a shape and a flat,
    row-major list of elements, as contiguous torch tensors do.  Element
    arithmetic (float32), the random generator, the spline / CDE solver
    package and automatic differentiation are interfaces: the script only
    calls them.

    [main] calls the model with [train_t[0]] and [train_t[-1]], which have no
    dimension, and the model joins them with [torch.cat], which refuses
    such tensors.  The last part of the file follows the script on these
    times: the run ends in the forward pass of the first batch. *)

From Stdlib Require Import List Arith Lia Bool ZArith QArith Qround Permutation.
Import ListNotations.
Open Scope nat_scope.

Set Implicit Arguments.

(** ** Exceptions and results *)

Inductive exn : Type :=
| ShapeError        (* RuntimeError raised by a shape mismatch *)
| IndexError
| NameError
| AssertionError
| ValueError
| LibraryError (code : nat).  (* anything an external routine raises *)

Inductive result (A : Type) : Type :=
| Ok (a : A)
| Raise (e : exn).

Arguments Ok {A} a.
Arguments Raise {A} e.

Definition rbind {A B : Type} (m : result A) (f : A -> result B) : result B :=
  match m with
  | Ok a => f a
  | Raise e => Raise e
  end.

Notation "x <- m ;; k" := (rbind m (fun x => k))
  (at level 61, m at next level, right associativity).

Definition is_ok {A : Type} (m : result A) : bool :=
  match m with Ok _ => true | Raise _ => false end.

(** The exception of a result that is one. *)
Definition raised {A : Type} (m : result A) : option exn :=
  match m with Ok _ => None | Raise e => Some e end.

(** ** Lists as Python sequences *)

(** [d[off : off + len]] *)
Definition slice {A : Type} (off len : nat) (d : list A) : list A :=
  firstn len (skipn off d).

(** [n] consecutive rows of width [w] of a flat storage *)
Definition rows {A : Type} (n w : nat) (d : list A) : list (list A) :=
  map (fun k => slice (k * w) w d) (seq 0 n).

(** [l[:n] = f(l[:n])], the update in place of a leading slice *)
Definition map_prefix {A : Type} (n : nat) (f : A -> A) (l : list A) : list A :=
  map f (firstn n l) ++ skipn n l.

(** An elementwise binary operation on two sequences of one length. *)
Fixpoint zip_with {A B C : Type} (f : A -> B -> C) (l1 : list A) (l2 : list B)
  : list C :=
  match l1, l2 with
  | a :: l1', b :: l2' => f a b :: zip_with f l1' l2'
  | _, _ => []
  end.

(** ** Tensor elements *)

(** The element type of a float tensor with the operations the script uses.
    [Rlit q] is the element a Python numeric literal denotes; [Rfeq] is
    torch's elementwise [==] and [Rgtb] its [>]; [linspace a b n] is
    [torch.linspace], a sequence of [n] elements.  The laws are the ones the
    labels 0.0 and 1.0 and the count of matching predictions obey. *)
Class Float : Type := {
  f32 : Type;
  Rlit : Q -> f32;
  Rpi : f32;
  Radd : f32 -> f32 -> f32;
  Rsub : f32 -> f32 -> f32;
  Rmul : f32 -> f32 -> f32;
  Rdiv : f32 -> f32 -> f32;
  Rcos : f32 -> f32;
  Rsin : f32 -> f32;
  Rtanh : f32 -> f32;
  Rsigmoid : f32 -> f32;
  Rgtb : f32 -> f32 -> bool;
  Rfeq : f32 -> f32 -> bool;
  linspace : f32 -> f32 -> nat -> list f32;
  linspace_length : forall a b n, length (linspace a b n) = n;
  Rfeq_0_0 : Rfeq (Rlit 0) (Rlit 0) = true;
  Rfeq_1_1 : Rfeq (Rlit 1) (Rlit 1) = true;
  Rfeq_0_1 : Rfeq (Rlit 0) (Rlit 1) = false;
  Rfeq_1_0 : Rfeq (Rlit 1) (Rlit 0) = false;
  (* counting in float32 is exact below 2^24 *)
  Radd_count : forall n : Z, (0 <= n < 16777216)%Z ->
      Radd (Rlit (inject_Z n)) (Rlit 1) = Rlit (inject_Z (n + 1));
  Radd_zero : forall n : Z, (0 <= n < 16777216)%Z ->
      Radd (Rlit (inject_Z n)) (Rlit 0) = Rlit (inject_Z n)
}.

(** ** Tensors *)

Section Tensors.
Context {FL : Float}.

Record Tensor : Type := mkTensor {
  shape : list nat;
  data : list f32
}.

Definition numel (s : list nat) : nat := fold_right Nat.mul 1 s.

Definition well_formed (t : Tensor) : Prop :=
  length (data t) = numel (shape t).

(** [s[-1]] *)
Definition last_dim (s : list nat) : option nat :=
  match s with
  | [] => None
  | _ => Some (last s 0)
  end.

(** *** torch.nn.Linear *)

Record Linear : Type := mkLinear {
  in_features : nat;
  out_features : nat;
  weight : list (list f32);   (* out_features rows of in_features *)
  bias : list f32             (* out_features *)
}.

(** The sum of products of one output element.  torch does not fix the
    order in which a kernel accumulates it, and the order may differ between
    a batched and a single-row call; the left-to-right order here stands for
    whichever was used.  What is proved of a layer is its shape and which
    input elements an output element is computed from. *)
Definition dot (w x : list f32) : f32 :=
  fold_left (fun acc p => Radd acc (Rmul (fst p) (snd p))) (combine w x) (Rlit 0).

(** [x @ weight.T + bias] for one row [x] *)
Definition affine (l : Linear) (x : list f32) : list f32 :=
  map (fun j => Radd (dot (nth j (weight l) []) x) (nth j (bias l) (Rlit 0)))
      (seq 0 (out_features l)).

(** Calling a Linear layer: the trailing dimension must be [in_features];
    every row of the input is mapped, the leading dimensions are kept. *)
Definition Linear_forward (l : Linear) (t : Tensor) : result Tensor :=
  match last_dim (shape t) with
  | None => Raise ShapeError
  | Some d =>
      if d =? in_features l then
        Ok {| shape := removelast (shape t) ++ [out_features l];
              data := flat_map (fun k => affine l (slice (k * d) d (data t)))
                               (seq 0 (numel (removelast (shape t)))) |}
      else Raise ShapeError
  end.

(** *** torch.tanh, Tensor.view *)

Definition tanh (t : Tensor) : Tensor :=
  {| shape := shape t; data := map Rtanh (data t) |}.

(** [t.view(s)] with the sizes [s] unpacked: the storage is shared, the
    element count must agree. *)
Definition view (t : Tensor) (s : list nat) : result Tensor :=
  if numel s =? numel (shape t) then Ok {| shape := s; data := data t |}
  else Raise ShapeError.

End Tensors.

(** ** The vector field f_theta *)

Module CDEFunc.
Section CDEFunc.
Context {FL : Float}.

Record t : Type := mk {
  input_channels : nat;
  hidden_channels : nat;
  linear1 : Linear;
  linear2 : Linear
}.

(** [__init__]: the two layers get their widths here; [w1 b1 w2 b2] are the
    parameter values (drawn at construction, later moved by the optimiser). *)
Definition init (input_channels hidden_channels : nat)
    (w1 : list (list f32)) (b1 : list f32)
    (w2 : list (list f32)) (b2 : list f32) : t :=
  {| input_channels := input_channels;
     hidden_channels := hidden_channels;
     linear1 := mkLinear hidden_channels 128 w1 b1;
     linear2 := mkLinear 128 (input_channels * hidden_channels) w2 b2 |}.

(** The three layers before the reshape. *)
Definition layers (self : t) (z : Tensor) : result Tensor :=
  z <- Linear_forward (linear1 self) z ;;
  let z := tanh z in
  Linear_forward (linear2 self) z.

Definition forward (self : t) (z : Tensor) : result Tensor :=
  z <- layers self z ;;
  view z (removelast (shape z) ++ [hidden_channels self; input_channels self]).

End CDEFunc.
End CDEFunc.

(** ** Calls that leave a trace *)

(** A computation that logs the calls it makes, in order, and stops at the
    first one that raises.  A call is logged when it is made, so the call
    that raised is the last entry. *)
Definition traced (E A : Type) : Type := (list E * result A)%type.

Definition tret {E A : Type} (a : A) : traced E A := ([], Ok a).

Definition tbind {E A B : Type} (m : traced E A) (f : A -> traced E B)
  : traced E B :=
  match snd m with
  | Ok a => let r := f a in (fst m ++ fst r, snd r)
  | Raise e => (fst m, Raise e)
  end.

Definition call {E A : Type} (ev : E) (r : result A) : traced E A := ([ev], r).

Definition lift {E A : Type} (r : result A) : traced E A := ([], r).

Notation "x <~ m ;; k" := (tbind m (fun x => k))
  (at level 61, m at next level, right associativity).

(** A run follows a schedule of call kinds when the calls it made are, in
    order, the schedule (it returned) or an initial part of it (it raised). *)
Definition follows {E K A : Type} (kind : E -> K) (schedule : list K)
    (m : traced E A) : Prop :=
  match snd m with
  | Ok _ => map kind (fst m) = schedule
  | Raise _ => exists rest, schedule = map kind (fst m) ++ rest
  end.

(** [for x in xs: s = body(s, x)] *)
Fixpoint for_each {E S X : Type} (xs : list X) (body : S -> X -> traced E S)
    (s : S) : traced E S :=
  match xs with
  | [] => tret s
  | x :: xs' => s' <~ body s x ;; for_each xs' body s'
  end.

(** ** Indexing *)

Section Indexing.
Context {FL : Float}.

(** [t[:, i]] for [0 <= i]: the entry [i] of dimension 1 of every batch
    element. *)
Definition select_dim1 (t : Tensor) (i : nat) : result Tensor :=
  match shape t with
  | b :: s :: rest =>
      if i <? s then
        let w := numel rest in
        Ok {| shape := b :: rest;
              data := flat_map (fun k => slice ((k * s + i) * w) w (data t))
                               (seq 0 b) |}
      else Raise IndexError
  | _ => Raise IndexError
  end.

(** [t[i]] for an integer [i], negative indices counting from the end. *)
Definition getitem (t : Tensor) (i : Z) : result Tensor :=
  match shape t with
  | [] => Raise IndexError
  | n :: rest =>
      let j := if (i <? 0)%Z then (i + Z.of_nat n)%Z else i in
      if ((0 <=? j) && (j <? Z.of_nat n))%Z then
        let w := numel rest in
        Ok {| shape := rest; data := slice (Z.to_nat j * w) w (data t) |}
      else Raise IndexError
  end.

(** [t[idx]] for an index tensor [idx]: the rows of [t] named by [idx]. *)
Definition index_select0 (t : Tensor) (idx : list nat) : result Tensor :=
  match shape t with
  | [] => Raise IndexError
  | n :: rest =>
      if forallb (fun i => i <? n) idx then
        let w := numel rest in
        Ok {| shape := length idx :: rest;
              data := flat_map (fun i => slice (i * w) w (data t)) idx |}
      else Raise IndexError
  end.

(** [t.squeeze(-1)] *)
Definition squeeze_last (t : Tensor) : Tensor :=
  match last_dim (shape t) with
  | Some 1 => {| shape := removelast (shape t); data := data t |}
  | _ => t
  end.

(** [t.size(0)] *)
Definition size0 (t : Tensor) : result nat :=
  match shape t with
  | [] => Raise IndexError
  | n :: _ => Ok n
  end.

(** [t.item()] *)
Definition item (t : Tensor) : result f32 :=
  match data t with
  | [x] => Ok x
  | _ => Raise ShapeError
  end.

End Indexing.

(** ** The external packages *)

(** torchcontroldiffeq, and [torch.cat], with which the model builds the
    time grid it hands to the solver.  Each of them may raise.  [torch.cat]
    joins tensors along an existing dimension, so it refuses a tensor that
    has none (RuntimeError: zero-dimensional tensor cannot be concatenated);
    the runtime errors about shapes are [ShapeError] here. *)
Class CDELib {FL : Float} : Type := {
  Spline : Type;
  NaturalCubicSpline : list Tensor -> result Spline;
  evaluate : Spline -> Tensor -> result Tensor;
  cdeint : Spline -> (Tensor -> result Tensor) -> Tensor -> Tensor
           -> result Tensor;
  natural_cubic_spline_coeffs : Tensor -> Tensor -> result (list Tensor);
  torch_cat : list Tensor -> result Tensor;
  torch_cat_zero_dim :
    forall ts t, In t ts -> shape t = [] -> torch_cat ts = Raise ShapeError
}.

(** ** The model *)

Module NeuralCDE.
Section NeuralCDE.
Context {FL : Float} {CL : CDELib}.

Record t : Type := mk {
  hidden_channels : nat;
  initial : Linear;
  func : CDEFunc.t;
  linear : Linear
}.

Definition init (input_channels hidden_channels output_channels : nat)
    (wi : list (list f32)) (bi : list f32)
    (w1 : list (list f32)) (b1 : list f32)
    (w2 : list (list f32)) (b2 : list f32)
    (wl : list (list f32)) (bl : list f32) : t :=
  {| hidden_channels := hidden_channels;
     initial := mkLinear input_channels hidden_channels wi bi;
     func := CDEFunc.init input_channels hidden_channels w1 b1 w2 b2;
     linear := mkLinear hidden_channels output_channels wl bl |}.

(** The calls [forward] makes. *)
Inductive step : Type :=
| StepSpline (coeffs : list Tensor)
| StepEvaluate (X : Spline) (at_t : Tensor)
| StepInitial (x0 : Tensor)
| StepCat (ts : list Tensor)
| StepCdeint (X : Spline) (func : Tensor -> result Tensor) (z0 grid : Tensor)
| StepSelect (z_T : Tensor) (index : nat)
| StepReadout (z_T : Tensor).

Inductive step_kind : Type :=
| KSpline | KEvaluate | KInitial | KCat | KCdeint | KSelect | KReadout.

Definition kind_of (s : step) : step_kind :=
  match s with
  | StepSpline _ => KSpline
  | StepEvaluate _ _ => KEvaluate
  | StepInitial _ => KInitial
  | StepCat _ => KCat
  | StepCdeint _ _ _ _ => KCdeint
  | StepSelect _ _ => KSelect
  | StepReadout _ => KReadout
  end.

Definition forward_traced (self : t) (coeffs : list Tensor)
    (initial_t final_t : Tensor) : traced step Tensor :=
  cubic_spline <~ call (StepSpline coeffs) (NaturalCubicSpline coeffs) ;;
  x0 <~ call (StepEvaluate cubic_spline initial_t)
             (evaluate cubic_spline initial_t) ;;
  z0 <~ call (StepInitial x0) (Linear_forward (initial self) x0) ;;
  grid <~ call (StepCat [initial_t; final_t])
               (torch_cat [initial_t; final_t]) ;;
  z_T <~ call (StepCdeint cubic_spline (CDEFunc.forward (func self)) z0 grid)
              (cdeint cubic_spline (CDEFunc.forward (func self)) z0 grid) ;;
  z_T <~ call (StepSelect z_T 1) (select_dim1 z_T 1) ;;
  pred_y <~ call (StepReadout z_T) (Linear_forward (linear self) z_T) ;;
  tret pred_y.

Definition forward (self : t) (coeffs : list Tensor)
    (initial_t final_t : Tensor) : result Tensor :=
  snd (forward_traced self coeffs initial_t final_t).

End NeuralCDE.
End NeuralCDE.

(** ** The random generator *)

(** torch's default generator is global mutable state; here it is threaded.
    [torch_rand n] draws [n] uniform elements, [torch_randperm n] a
    permutation of [0 .. n-1], [reset_parameters] the initial weight and
    bias of a Linear layer, and [dataloader_iter] is what creating a
    DataLoader iterator does to the generator. *)
Class RandomGen {FL : Float} : Type := {
  Generator : Type;
  torch_rand : nat -> Generator -> list f32 * Generator;
  torch_rand_length : forall n g, length (fst (torch_rand n g)) = n;
  torch_randperm : nat -> Generator -> list nat * Generator;
  torch_randperm_perm :
    forall n g, Permutation (seq 0 n) (fst (torch_randperm n g));
  reset_parameters :
    nat -> nat -> Generator -> (list (list f32) * list f32) * Generator;
  dataloader_iter : Generator -> Generator
}.

(** ** The data *)

Section GetData.
Context {FL : Float} {RG : RandomGen}.

(** [torch.cos(times) / (1 + 0.5 * times)] at one element, and its sine twin *)
Definition x_curve (time : f32) : f32 :=
  Rdiv (Rcos time) (Radd (Rlit 1) (Rmul (Rlit (1 # 2)) time)).

Definition y_curve (time : f32) : f32 :=
  Rdiv (Rsin time) (Radd (Rlit 1) (Rmul (Rlit (1 # 2)) time)).

(** A three-dimensional tensor from its nested rows. *)
Definition tensor3 (n m c : nat) (x : list (list (list f32))) : Tensor :=
  {| shape := [n; m; c]; data := concat (map (@concat f32) x) |}.

Definition tensor1 (v : list f32) : Tensor :=
  {| shape := [length v]; data := v |}.

(** [start = torch.rand(128) * 2 * math.pi] from the drawn elements *)
Definition start_phases (r_start : list f32) : list f32 :=
  map (fun v => Rmul (Rmul v (Rlit 2)) Rpi) r_start.

(** [times = start.unsqueeze(1) + linspace.unsqueeze(0)], shape (128, 100) *)
Definition spiral_times (start : list f32) : list (list f32) :=
  let linspace_ := linspace (Rlit 0) (Rmul (Rlit 4) Rpi) 100 in
  map (fun s => map (fun l => Radd s l) linspace_) start.

(** [x_pos], after the first 64 rows were multiplied by -1 in place *)
Definition flipped_x_pos (times : list (list f32)) : list (list f32) :=
  let x_pos := map (map x_curve) times in
  map_prefix 64 (map (fun v => Rmul v (Rlit (-1)))) x_pos.

(** [pos = torch.stack([x_pos, y_pos], dim=2)], shape (128, 100, 2) *)
Definition positions (times : list (list f32)) : list (list (list f32)) :=
  let x_pos := flipped_x_pos times in
  let y_pos := map (map y_curve) times in
  zip_with (zip_with (fun a b => [a; b])) x_pos y_pos.

(** [additive_noise = 0.06 * torch.rand(128, 100, 2) - 0.03] from the drawn
    elements *)
Definition additive_noise (r_noise : list f32) : list (list (list f32)) :=
  map (rows 100 2)
      (rows 128 (100 * 2)
            (map (fun v => Rsub (Rmul (Rlit (6 # 100)) v) (Rlit (3 # 100)))
                 r_noise)).

(** [X = pos + additive_noise] before the shuffle, as nested rows
    (sample, time step, channel) *)
Definition trajectories (r_start r_noise : list f32) : list (list (list f32)) :=
  zip_with (zip_with (zip_with Radd))
           (positions (spiral_times (start_phases r_start)))
           (additive_noise r_noise).

(** [y] before the shuffle: [torch.zeros(128)] then [y[:64] = 1] *)
Definition labels : list f32 :=
  let y := repeat (Rlit 0) 128 in
  map_prefix 64 (fun _ => Rlit 1) y.

(** The three draws of [get_data], in the order the script makes them. *)
Definition draw_start (g : Generator) : list f32 * Generator :=
  torch_rand 128 g.

Definition draw_noise (g : Generator) : list f32 * Generator :=
  torch_rand (128 * 100 * 2) (snd (draw_start g)).

Definition draw_perm (g : Generator) : list nat * Generator :=
  torch_randperm 128 (snd (draw_noise g)).

(** How many elements of [l] compare equal to [v] *)
Definition count_eq (v : f32) (l : list f32) : nat :=
  length (filter (fun x => Rfeq x v) l).

(** The generator is read three times, in the order of the script: the
    start phases, the noise, the permutation.  The arithmetic between the
    draws does not touch it.  [X[perm]] and [y[perm]] index the first
    dimension. *)
Definition get_data (g : Generator)
  : result (Tensor * Tensor * Tensor) * Generator :=
  let (r_start, g) := torch_rand 128 g in
  let (r_noise, g) := torch_rand (128 * 100 * 2) g in
  let X := tensor3 128 100 2 (trajectories r_start r_noise) in
  let y := tensor1 labels in
  let (perm, g) := torch_randperm 128 g in
  (X <- index_select0 X perm ;;
   y <- index_select0 y perm ;;
   let t := tensor1 (linspace (Rlit 0) (Rlit 99) 100) in
   Ok (t, X, y),
   g).

End GetData.

(** ** Runs of the data generator *)

(** To compare two runs of [get_data], what the generator returns is taken
    as a relation: [rand_draws n s l s'] says that [torch.rand] of [n]
    elements, called in state [s], may return [l] and leave the state [s'];
    [randperm_draws] likewise for [torch.randperm].  Nothing makes the
    relation single-valued: a source may answer one state in several ways.
    A generator that is a function of its state is the source
    [source_of]. *)
Class RandomSource {FL : Float} : Type := {
  SourceState : Type;
  rand_draws : nat -> SourceState -> list f32 -> SourceState -> Prop;
  randperm_draws : nat -> SourceState -> list nat -> SourceState -> Prop
}.

Section Runs.
Context {FL : Float}.



(** A source that answers every state with any tensor of the right size and
    any permutation. *)
Definition any_source : RandomSource :=
  {| SourceState := unit;
     rand_draws := fun n _ l _ => length l = n;
     randperm_draws := fun n _ p _ => Permutation (seq 0 n) p |}.

(** What [get_data] computes from the three draws: the lines between and
    after them. *)
Definition assemble (r_start r_noise : list f32) (perm : list nat)
  : result (Tensor * Tensor * Tensor) :=
  let X := tensor3 128 100 2 (trajectories r_start r_noise) in
  let y := tensor1 labels in
  X <- index_select0 X perm ;;
  y <- index_select0 y perm ;;
  let t := tensor1 (linspace (Rlit 0) (Rlit 99) 100) in
  Ok (t, X, y).

(** One run of [get_data] from the state [s]: the three draws in the order
    of the script, each from the state the previous one left. *)
Inductive get_data_run {RS : RandomSource} (s : SourceState)
  : result (Tensor * Tensor * Tensor) -> SourceState -> Prop :=
| GetDataRun (r_start r_noise : list f32) (perm : list nat)
    (s1 s2 s3 : SourceState) :
    rand_draws 128 s r_start s1 ->
    rand_draws (128 * 100 * 2) s1 r_noise s2 ->
    randperm_draws 128 s2 perm s3 ->
    get_data_run s (assemble r_start r_noise perm) s3.

End Runs.

(** ** Elementwise operations of the evaluation *)

Section Elementwise.
Context {FL : Float}.

(** A tensor of booleans, the result of a comparison. *)
Record BoolTensor : Type := mkBoolTensor {
  bshape : list nat;
  bdata : list bool
}.

Definition sigmoid (t : Tensor) : Tensor :=
  {| shape := shape t; data := map Rsigmoid (data t) |}.

(** [t > c] for a Python number [c] *)
Definition gt_scalar (t : Tensor) (c : Q) : BoolTensor :=
  {| bshape := shape t; bdata := map (fun v => Rgtb v (Rlit c)) (data t) |}.

(** [b.to(dtype)] for a float dtype *)
Definition to_float (b : BoolTensor) : Tensor :=
  {| shape := bshape b;
     data := map (fun x : bool => if x then Rlit 1 else Rlit 0) (bdata b) |}.

(** Broadcasting: shapes are aligned at the right, a dimension of size 1 is
    stretched. *)
Definition pad_shape (r : nat) (s : list nat) : list nat :=
  repeat 1 (r - length s) ++ s.

Fixpoint broadcast_shapes (s1 s2 : list nat) : result (list nat) :=
  match s1, s2 with
  | [], [] => Ok []
  | a :: s1', b :: s2' =>
      if (a =? b) || (b =? 1) then
        s <- broadcast_shapes s1' s2' ;; Ok (a :: s)
      else if a =? 1 then
        s <- broadcast_shapes s1' s2' ;; Ok (b :: s)
      else Raise ShapeError
  | _, _ => Raise ShapeError
  end.

Fixpoint broadcast_data {X : Type} (f : f32 -> f32 -> X) (s1 s2 : list nat)
    (d1 d2 : list f32) : list X :=
  match s1, s2 with
  | a :: s1', b :: s2' =>
      let w1 := numel s1' in
      let w2 := numel s2' in
      flat_map (fun i =>
                  broadcast_data f s1' s2'
                    (slice ((if a =? 1 then 0 else i) * w1) w1 d1)
                    (slice ((if b =? 1 then 0 else i) * w2) w2 d2))
               (seq 0 (if a =? 1 then b else a))
  | _, _ =>
      match d1, d2 with
      | x :: _, y :: _ => [f x y]
      | _, _ => []
      end
  end.

(** [a == b] *)
Definition eq_tensor (a b : Tensor) : result BoolTensor :=
  let r := Nat.max (length (shape a)) (length (shape b)) in
  let s1 := pad_shape r (shape a) in
  let s2 := pad_shape r (shape b) in
  s <- broadcast_shapes s1 s2 ;;
  Ok {| bshape := s; bdata := broadcast_data Rfeq s1 s2 (data a) (data b) |}.

(** [t.sum()], adding in storage order (on the 0/1 indicators it is applied
    to, every order of addition gives the same element) *)
Definition sum (t : Tensor) : Tensor :=
  {| shape := []; data := [fold_left Radd (data t) (Rlit 0)] |}.

(** [t / n] for a Python integer [n] *)
Definition div_int (t : Tensor) (n : nat) : Tensor :=
  {| shape := shape t;
     data := map (fun v => Rdiv v (Rlit (inject_Z (Z.of_nat n)))) (data t) |}.

End Elementwise.

(** ** Datasets and batches *)

Section Batches.
Context {FL : Float}.

Record Dataset : Type := mkDataset {
  tensors : list Tensor;
  len : nat
}.

(** [all(tensors[0].size(0) == tensor.size(0) for tensor in tensors)] *)
Fixpoint all_size0 (n : nat) (ts : list Tensor) : result bool :=
  match ts with
  | [] => Ok true
  | t :: ts' => m <- size0 t ;; if n =? m then all_size0 n ts' else Ok false
  end.

(** [torch.utils.data.TensorDataset] of the unpacked tensors *)
Definition TensorDataset (ts : list Tensor) : result Dataset :=
  match ts with
  | [] => Raise IndexError
  | t0 :: _ =>
      n <- size0 t0 ;;
      same <- all_size0 n ts ;;
      if same then Ok {| tensors := ts; len := n |} else Raise AssertionError
  end.

(** The index batches of a DataLoader that does not shuffle and keeps the
    last, possibly shorter, batch. *)
Definition batch_indices (n batch_size : nat) : list (list nat) :=
  map (fun k => seq (k * batch_size) (Nat.min batch_size (n - k * batch_size)))
      (seq 0 ((n + batch_size - 1) / batch_size)).

(** One collated batch: the rows [idx] of every tensor of the dataset. *)
Fixpoint fetch (ts : list Tensor) (idx : list nat) : result (list Tensor) :=
  match ts with
  | [] => Ok []
  | t :: ts' =>
      b <- index_select0 t idx ;;
      bs <- fetch ts' idx ;;
      Ok (b :: bs)
  end.

(** Starred unpacking: every element but the last, and the last. *)
Definition unpack_last (batch : list Tensor)
  : result (list Tensor * Tensor) :=
  match batch with
  | [] => Raise ValueError
  | t :: _ => Ok (removelast batch, last batch t)
  end.

End Batches.

(** ** Loss, automatic differentiation, optimiser *)

Class Trainer {FL : Float} {CL : CDELib} : Type := {
  Grads : Type;
  OptState : Type;
  no_grads : Grads;
  Adam : NeuralCDE.t -> Q -> OptState;
  binary_cross_entropy_with_logits : Tensor -> Tensor -> result Tensor;
  (* [loss.backward()]: the gradients of [loss], which was computed from the
     model, the batch and its labels, added to the stored ones *)
  backward : Tensor -> NeuralCDE.t -> list Tensor -> Tensor -> Grads
             -> result Grads;
  optimizer_step : OptState -> NeuralCDE.t -> Grads
                   -> result (NeuralCDE.t * OptState);
  zero_grad : Grads -> Grads
}.

(** ** The script *)

Module Script.
Section Script.
Context {FL : Float} {CL : CDELib} {RG : RandomGen} {TR : Trainer}.

(** What [main] does, as seen from outside. *)
Inductive event : Type :=
| EvGetData (g : Generator)
| EvSplineCoeffs (t X : Tensor)
| EvForward (model : NeuralCDE.t) (coeffs : list Tensor) (t0 t1 : Tensor)
| EvLoss (pred_y y : Tensor)
| EvBackward (loss : Tensor)
| EvStep
| EvZeroGrad
| EvPrintEpoch (epoch : nat) (loss : f32)
| EvPrintAccuracy (proportion_correct : Tensor).

(** The kind of an event, without its arguments. *)
Inductive tag : Type :=
| TGetData | TSplineCoeffs | TForward | TLoss | TBackward | TStep
| TZeroGrad | TPrintEpoch | TPrintAccuracy.

Definition tag_of (e : event) : tag :=
  match e with
  | EvGetData _ => TGetData
  | EvSplineCoeffs _ _ => TSplineCoeffs
  | EvForward _ _ _ _ => TForward
  | EvLoss _ _ => TLoss
  | EvBackward _ => TBackward
  | EvStep => TStep
  | EvZeroGrad => TZeroGrad
  | EvPrintEpoch _ _ => TPrintEpoch
  | EvPrintAccuracy _ => TPrintAccuracy
  end.

(** [NeuralCDE(input_channels, hidden_channels, output_channels)]: the
    layers draw their parameters in the order they are created. *)
Definition NeuralCDE_new (input_channels hidden_channels output_channels : nat)
    (g : Generator) : NeuralCDE.t * Generator :=
  let '((wi, bi), g) := reset_parameters input_channels hidden_channels g in
  let '((w1, b1), g) := reset_parameters hidden_channels 128 g in
  let '((w2, b2), g) :=
    reset_parameters 128 (input_channels * hidden_channels) g in
  let '((wl, bl), g) := reset_parameters hidden_channels output_channels g in
  (NeuralCDE.init input_channels hidden_channels output_channels
                  wi bi w1 b1 w2 b2 wl bl, g).

(** The variables of [main] that the loop changes.  [loss] is unbound until
    the first batch has been processed. *)
Record state : Type := mkState {
  model : NeuralCDE.t;
  grads : Grads;
  optimizer : OptState;
  loss : option Tensor;
  rng : Generator
}.

(** The body of [for batch in train_dataloader]. *)
Definition train_batch (train_t : Tensor) (st : state) (batch : list Tensor)
  : traced event state :=
  p <~ lift (unpack_last batch) ;;
  let batch_coeffs := fst p in
  let batch_y := snd p in
  t0 <~ lift (getitem train_t 0) ;;
  t1 <~ lift (getitem train_t (-1)) ;;
  pred_y <~ call (EvForward (model st) batch_coeffs t0 t1)
                 (NeuralCDE.forward (model st) batch_coeffs t0 t1) ;;
  let pred_y := squeeze_last pred_y in
  loss <~ call (EvLoss pred_y batch_y)
               (binary_cross_entropy_with_logits pred_y batch_y) ;;
  g <~ call (EvBackward loss)
            (backward loss (model st) batch_coeffs batch_y (grads st)) ;;
  mo <~ call EvStep (optimizer_step (optimizer st) (model st) g) ;;
  g <~ call EvZeroGrad (Ok (zero_grad g)) ;;
  tret {| model := fst mo; grads := g; optimizer := snd mo;
          loss := Some loss; rng := rng st |}.

(** The body of [for epoch in range(100)]: one pass over the DataLoader
    (batch size 32), then the print. *)
Definition train_epoch (train_t : Tensor) (train_dataset : Dataset)
    (st : state) (epoch : nat) : traced event state :=
  let st := {| model := model st; grads := grads st;
               optimizer := optimizer st; loss := loss st;
               rng := dataloader_iter (rng st) |} in
  st <~ for_each (batch_indices (len train_dataset) 32)
                 (fun st idx =>
                    batch <~ lift (fetch (tensors train_dataset) idx) ;;
                    train_batch train_t st batch)
                 st ;;
  l <~ lift (match loss st with
             | None => Raise NameError
             | Some l => item l
             end) ;;
  _ <~ call (EvPrintEpoch epoch l) (Ok tt) ;;
  tret st.

Definition train (train_t : Tensor) (train_dataset : Dataset) (st : state)
  : traced event state :=
  for_each (seq 0 100) (train_epoch train_t train_dataset) st.

(** The three lines that turn the logits and the labels into the reported
    proportion. *)
Definition proportion_correct (pred_y test_y : Tensor) : result Tensor :=
  let binary_prediction := to_float (gt_scalar (sigmoid pred_y) (1 # 2)) in
  m <- eq_tensor binary_prediction test_y ;;
  let prediction_matches := to_float m in
  n <- size0 test_y ;;
  Ok (div_int (sum prediction_matches) n).

(** The lines of [main] after the loop. *)
Definition evaluation (model : NeuralCDE.t) (g : Generator)
  : traced event unit :=
  d <~ call (EvGetData g) (fst (get_data g)) ;;
  let test_t := fst (fst d) in
  let test_X := snd (fst d) in
  let test_y := snd d in
  test_coeffs <~ call (EvSplineCoeffs test_t test_X)
                      (natural_cubic_spline_coeffs test_t test_X) ;;
  t0 <~ lift (getitem test_t 0) ;;
  t1 <~ lift (getitem test_t (-1)) ;;
  pred_y <~ call (EvForward model test_coeffs t0 t1)
                 (NeuralCDE.forward model test_coeffs t0 t1) ;;
  let pred_y := squeeze_last pred_y in
  proportion_correct <~ lift (proportion_correct pred_y test_y) ;;
  call (EvPrintAccuracy proportion_correct) (Ok tt).

Definition main (g : Generator) : traced event unit :=
  d <~ call (EvGetData g) (fst (get_data g)) ;;
  let g := snd (get_data g) in
  let train_t := fst (fst d) in
  let train_X := snd (fst d) in
  let train_y := snd d in
  let (model, g) := NeuralCDE_new 2 8 1 g in
  let optimizer := Adam model (1 # 1000) in
  train_coeffs <~ call (EvSplineCoeffs train_t train_X)
                       (natural_cubic_spline_coeffs train_t train_X) ;;
  train_dataset <~ lift (TensorDataset (train_coeffs ++ [train_y])) ;;
  st <~ train train_t train_dataset
              {| model := model; grads := no_grads; optimizer := optimizer;
                 loss := None; rng := g |} ;;
  evaluation (Script.model st) (rng st).

(** The state [main] enters the loop with: the model and the optimiser as
    constructed, no loss yet, the generator as the construction left it. *)
Definition initial_state (g : Generator) : state :=
  let (model, g) := NeuralCDE_new 2 8 1 (snd (get_data g)) in
  {| model := model; grads := no_grads; optimizer := Adam model (1 # 1000);
     loss := None; rng := g |}.

(** A label: 0.0 or 1.0 *)
Definition binary (v : f32) : Prop := v = Rlit 0 \/ v = Rlit 1.

(** Whether the prediction read off a logit (sigmoid above 0.5) is the
    label, and how many samples this holds for. *)
Definition agrees (logit label : f32) : bool :=
  Bool.eqb (Rgtb (Rsigmoid logit) (Rlit (1 # 2))) (Rfeq label (Rlit 1)).

Definition count_matches (pred_y test_y : Tensor) : nat :=
  length (filter (fun b : bool => b)
                 (zip_with agrees (data pred_y) (data test_y))).

(** *** What a run of the loop looks like *)

(** The calls of one batch iteration, of one epoch over [nb] batches, and of
    the whole loop. *)
Definition batch_tags : list tag := [TForward; TLoss; TBackward; TStep; TZeroGrad].

Definition epoch_tags (nb : nat) : list tag :=
  concat (repeat batch_tags nb) ++ [TPrintEpoch].

Definition train_tags (nb : nat) : list tag := concat (repeat (epoch_tags nb) 100).

(** A batch iteration that returned: from state [st] it made the calls [tr],
    computed the loss [L] of this batch and left the state [st']. *)
Definition batch_run (train_t : Tensor) (st : state) (batch : list Tensor)
    (tr : list event) (L : Tensor) (st' : state) : Prop :=
  exists batch_coeffs batch_y t0 t1 pred_y g mo,
    unpack_last batch = Ok (batch_coeffs, batch_y)
    /\ getitem train_t 0 = Ok t0
    /\ getitem train_t (-1) = Ok t1
    /\ NeuralCDE.forward (model st) batch_coeffs t0 t1 = Ok pred_y
    /\ binary_cross_entropy_with_logits (squeeze_last pred_y) batch_y = Ok L
    /\ backward L (model st) batch_coeffs batch_y (grads st) = Ok g
    /\ optimizer_step (optimizer st) (model st) g = Ok mo
    /\ tr = [EvForward (model st) batch_coeffs t0 t1;
             EvLoss (squeeze_last pred_y) batch_y;
             EvBackward L; EvStep; EvZeroGrad]
    /\ st' = {| model := fst mo; grads := zero_grad g; optimizer := snd mo;
                loss := Some L; rng := rng st |}.

(** An epoch over 128 samples that returned: the four batches of 32
    consecutive samples, in dataset order, then the print of the loss of the
    fourth. *)
Definition epoch_run (train_t : Tensor) (ds : Dataset) (epoch : nat)
    (tr : list event) : Prop :=
  exists b0 b1 b2 b3 tr0 tr1 tr2 tr3 L0 L1 L2 L3 st0 st1 st2 st3 st4 l,
    fetch (tensors ds) (seq 0 32) = Ok b0
    /\ fetch (tensors ds) (seq 32 32) = Ok b1
    /\ fetch (tensors ds) (seq 64 32) = Ok b2
    /\ fetch (tensors ds) (seq 96 32) = Ok b3
    /\ batch_run train_t st0 b0 tr0 L0 st1
    /\ batch_run train_t st1 b1 tr1 L1 st2
    /\ batch_run train_t st2 b2 tr2 L2 st3
    /\ batch_run train_t st3 b3 tr3 L3 st4
    /\ item L3 = Ok l
    /\ tr = tr0 ++ tr1 ++ tr2 ++ tr3 ++ [EvPrintEpoch epoch l].

End Script.
End Script.

(** ** A small runtime to run the definitions on

    Elements are fixed-point numbers (an integer counts thousandths), the
    transcendental functions are replaced by rational stand-ins, the path is
    treated as constant by the solver, and the optimiser only counts its
    steps. *)

Module Toy.

Definition fix_of (q : Q) : Z := Qfloor (q * 1000).

Definition fix_mul (a b : Z) : Z := (a * b / 1000)%Z.

Definition fix_div (a b : Z) : Z := (a * 1000 / b)%Z.

Definition toy_linspace (a b : Z) (n : nat) : list Z :=
  map (fun i => (a + Z.of_nat i * (b - a) / Z.of_nat (n - 1))%Z) (seq 0 n).

Lemma toy_linspace_length (a b : Z) (n : nat) :
  length (toy_linspace a b n) = n.
Proof. unfold toy_linspace. now rewrite length_map, length_seq. Qed.

Lemma fix_of_Z (n : Z) : fix_of (inject_Z n) = (n * 1000)%Z.
Proof.
  unfold fix_of, Qfloor, Qmult, inject_Z; simpl. apply Z.div_1_r.
Qed.

Lemma toy_count (n : Z) :
  (0 <= n < 16777216)%Z ->
  (fix_of (inject_Z n) + fix_of 1 = fix_of (inject_Z (n + 1)))%Z.
Proof. intros _. rewrite !fix_of_Z. change (fix_of 1) with 1000%Z. lia. Qed.

Lemma toy_zero (n : Z) :
  (0 <= n < 16777216)%Z ->
  (fix_of (inject_Z n) + fix_of 0 = fix_of (inject_Z n))%Z.
Proof. intros _. change (fix_of 0) with 0%Z. lia. Qed.

Definition toy_float : Float :=
  {| f32 := Z;
     Rlit := fix_of;
     Rpi := 3142%Z;
     Radd := Z.add;
     Rsub := Z.sub;
     Rmul := fix_mul;
     Rdiv := fix_div;
     Rcos := fun x => (1000 - fix_mul x x / 2)%Z;
     Rsin := fun x => x;
     Rtanh := fun x => fix_div x (1000 + Z.abs x);
     Rsigmoid := fun x => (500 + fix_div x (1000 + Z.abs x) / 2)%Z;
     Rgtb := fun a b => (b <? a)%Z;
     Rfeq := Z.eqb;
     linspace := toy_linspace;
     linspace_length := toy_linspace_length;
     Rfeq_0_0 := eq_refl;
     Rfeq_1_1 := eq_refl;
     Rfeq_0_1 := eq_refl;
     Rfeq_1_0 := eq_refl;
     Radd_count := toy_count;
     Radd_zero := toy_zero |}.

#[local] Existing Instance toy_float.

(** [torch.cat] along dimension 0 *)
Definition toy_cat (ts : list Tensor) : result Tensor :=
  match ts with
  | [] => Raise ShapeError
  | t0 :: _ =>
      if forallb (fun t => negb (length (shape t) =? 0)) ts then
        Ok {| shape := fold_right (fun t n => hd 0 (shape t) + n) 0 ts
                       :: tl (shape t0);
              data := flat_map data ts |}
      else Raise ShapeError
  end.

(** The solution of a CDE driven by a constant path: the initial state at
    every requested time. *)
Definition toy_cdeint (X : list Tensor) (func : Tensor -> result Tensor)
    (z0 grid : Tensor) : result Tensor :=
  match shape z0, shape grid with
  | [b; h], [n] =>
      Ok {| shape := [b; n; h];
            data := flat_map (fun k => concat (repeat (slice (k * h) h (data z0)) n))
                             (seq 0 b) |}
  | _, _ => Raise (LibraryError 1)
  end.

Lemma toy_cat_zero_dim (ts : list Tensor) (t : Tensor) :
  In t ts -> shape t = [] -> toy_cat ts = Raise ShapeError.
Proof.
  intros Hin Hs. unfold toy_cat. destruct ts as [|t0 ts']; [reflexivity|].
  destruct (forallb (fun t => negb (length (shape t) =? 0)) (t0 :: ts'))
    eqn:E; [|reflexivity].
  rewrite forallb_forall in E. specialize (E t Hin).
  rewrite Hs in E. discriminate.
Qed.

Definition toy_cdelib : CDELib :=
  {| Spline := list Tensor;
     NaturalCubicSpline := fun coeffs => Ok coeffs;
     evaluate := fun X _ =>
       match X with
       | a :: _ => select_dim1 a 0
       | [] => Raise (LibraryError 0)
       end;
     cdeint := toy_cdeint;
     natural_cubic_spline_coeffs := fun _ X => Ok [X];
     torch_cat := toy_cat;
     torch_cat_zero_dim := toy_cat_zero_dim |}.

#[local] Existing Instance toy_cdelib.

Definition toy_rand (n g : nat) : list Z * nat :=
  (map (fun i => (Z.of_nat ((g + i) mod 10) * 100)%Z) (seq 0 n), g + n).

Lemma toy_rand_length (n g : nat) : length (fst (toy_rand n g)) = n.
Proof. unfold toy_rand; simpl. now rewrite length_map, length_seq. Qed.

Definition toy_randperm (n g : nat) : list nat * nat := (rev (seq 0 n), S g).

Lemma toy_randperm_perm (n g : nat) :
  Permutation (seq 0 n) (fst (toy_randperm n g)).
Proof. apply Permutation_rev. Qed.

Definition toy_random : RandomGen :=
  {| Generator := nat;
     torch_rand := toy_rand;
     torch_rand_length := toy_rand_length;
     torch_randperm := toy_randperm;
     torch_randperm_perm := toy_randperm_perm;
     reset_parameters := fun i o g =>
       ((repeat (repeat 100%Z i) o, repeat 0%Z o), S g);
     dataloader_iter := S |}.

#[local] Existing Instance toy_random.

Definition toy_trainer : Trainer :=
  {| Grads := unit;
     OptState := nat;
     no_grads := tt;
     Adam := fun _ _ => 0;
     binary_cross_entropy_with_logits := fun pred_y _ => Ok (sum pred_y);
     backward := fun _ _ _ _ g => Ok g;
     optimizer_step := fun o m _ => Ok (m, S o);
     zero_grad := fun g => g |}.

#[local] Existing Instance toy_trainer.

(** A hidden state of two samples and three channels. *)
Definition toy_hidden : Tensor :=
  mkTensor [2; 3] [1000; 2000; 3000; 4000; 5000; 6000]%Z.

(** A batch of two paths with two channels, given by one coefficient
    tensor, and a model with three hidden channels and one output channel. *)
Definition toy_coeffs : list Tensor :=
  [mkTensor [2; 2; 2] [1000; 2000; 3000; 4000; 5000; 6000; 7000; 8000]%Z].

Definition toy_t0 : Tensor := mkTensor [1] [0%Z].
Definition toy_t1 : Tensor := mkTensor [1] [1000%Z].

Definition toy_wi : list (list Z) := repeat (repeat 100%Z 2) 3.
Definition toy_bi : list Z := repeat 0%Z 3.
Definition toy_wl : list (list Z) := [repeat 100%Z 3].
Definition toy_bl : list Z := [0%Z].

Definition toy_model : NeuralCDE.t :=
  NeuralCDE.init 2 3 1 toy_wi toy_bi [] [] [] [] toy_wl toy_bl.

Definition toy_x0 : Tensor := mkTensor [2; 2] [1000; 2000; 5000; 6000]%Z.

Definition toy_z0 : Tensor :=
  Eval vm_compute in
    match Linear_forward (NeuralCDE.initial toy_model) toy_x0 with
    | Ok z => z
    | Raise _ => toy_x0
    end.

Definition toy_grid : Tensor := mkTensor [2] [0; 1000]%Z.

Definition toy_zs : Tensor :=
  Eval vm_compute in
    match toy_cdeint toy_coeffs (CDEFunc.forward (NeuralCDE.func toy_model))
                     toy_z0 toy_grid with
    | Ok z => z
    | Raise _ => toy_x0
    end.



(** A dataset of 128 samples: one coefficient tensor and the labels.  The
    times are kept as one-element rows, so that the grid handed to the
    solver is a concatenation of one-dimensional tensors. *)
Definition toy_train_t : Tensor := mkTensor [2; 1] [0; 99000]%Z.

Definition toy_coeff128 : Tensor := mkTensor [128; 2; 2] (repeat 1000%Z 512).

Definition toy_labels128 : Tensor := mkTensor [128] (repeat 0%Z 128).

Definition toy_dataset : Dataset :=
  {| tensors := [toy_coeff128; toy_labels128]; len := 128 |}.

Definition toy_state : Script.state :=
  {| Script.model := fst (Script.NeuralCDE_new 2 8 1 0);
     Script.grads := tt;
     Script.optimizer := 0;
     Script.loss := None;
     Script.rng := 0 |}.

End Toy.

(** * Properties *)

(** ** Shapes *)

Section ShapeFacts.
Context {FL : Float}.

Lemma numel_app (a b : list nat) : numel (a ++ b) = numel a * numel b.
Proof.
  induction a as [|x a IH]; simpl.
  - lia.
  - rewrite IH. lia.
Qed.

Lemma last_dim_snoc (s : list nat) (d : nat) : last_dim (s ++ [d]) = Some d.
Proof.
  unfold last_dim. destruct (s ++ [d]) eqn:E.
  - now destruct s.
  - rewrite <- E. now rewrite last_last.
Qed.

Lemma last_dim_split (s : list nat) (d : nat) :
  last_dim s = Some d -> s = removelast s ++ [d].
Proof.
  unfold last_dim. destruct s as [|x s]; [discriminate|].
  intros H. assert (E : last (x :: s) 0 = d) by congruence.
  rewrite <- E. apply app_removelast_last. discriminate.
Qed.

Lemma length_flat_map_const {A B : Type} (f : A -> list B) (w : nat)
    (l : list A) :
  (forall a, length (f a) = w) -> length (flat_map f l) = length l * w.
Proof.
  intros Hf. induction l as [|a l IH]; simpl; [reflexivity|].
  now rewrite length_app, Hf, IH.
Qed.

Lemma length_affine (l : Linear) (x : list f32) :
  length (affine l x) = out_features l.
Proof. unfold affine. now rewrite length_map, length_seq. Qed.

(** A Linear layer accepts exactly the tensors whose trailing dimension is
    its input width, and replaces that dimension by its output width. *)
Lemma Linear_forward_ok (l : Linear) (z : Tensor) :
  last_dim (shape z) = Some (in_features l) ->
  exists a, Linear_forward l z = Ok a
            /\ shape a = removelast (shape z) ++ [out_features l]
            /\ well_formed a.
Proof.
  intros H. unfold Linear_forward. rewrite H, Nat.eqb_refl.
  eexists; split; [reflexivity|]. split; [reflexivity|].
  unfold well_formed; simpl.
  rewrite length_flat_map_const with (w := out_features l)
    by (intro; apply length_affine).
  rewrite length_seq, numel_app. simpl. lia.
Qed.

Lemma Linear_forward_shape (l : Linear) (z a : Tensor) :
  Linear_forward l z = Ok a ->
  last_dim (shape z) = Some (in_features l)
  /\ shape a = removelast (shape z) ++ [out_features l]
  /\ well_formed a.
Proof.
  intros H.
  assert (Hd : last_dim (shape z) = Some (in_features l)).
  { unfold Linear_forward in H. destruct (last_dim (shape z)) as [d|]; [|discriminate].
    destruct (d =? in_features l) eqn:E; [|discriminate].
    apply Nat.eqb_eq in E. now subst. }
  split; [exact Hd|].
  destruct (Linear_forward_ok l z Hd) as (a' & Ha & Hs & Hw).
  rewrite Ha in H. injection H as <-. now split.
Qed.

Lemma view_ok (t : Tensor) (s : list nat) :
  numel s = numel (shape t) ->
  view t s = Ok {| shape := s; data := data t |}.
Proof. intros H. unfold view. now rewrite H, Nat.eqb_refl. Qed.

End ShapeFacts.

(** ** The vector field *)

Section CDEFuncFacts.
Context {FL : Float}.

Lemma layers_ok (ic hc : nat) (w1 : list (list f32)) (b1 : list f32)
    (w2 : list (list f32)) (b2 : list f32) (z : Tensor) :
  last_dim (shape z) = Some hc ->
  exists a1 a2,
    Linear_forward (mkLinear hc 128 w1 b1) z = Ok a1
    /\ shape a1 = removelast (shape z) ++ [128]
    /\ Linear_forward (mkLinear 128 (ic * hc) w2 b2) (tanh a1) = Ok a2
    /\ shape a2 = removelast (shape z) ++ [ic * hc]
    /\ well_formed a2
    /\ CDEFunc.layers (CDEFunc.init ic hc w1 b1 w2 b2) z = Ok a2.
Proof.
  intros H.
  destruct (Linear_forward_ok (mkLinear hc 128 w1 b1) z H) as (a1 & H1 & S1 & _).
  simpl in S1.
  assert (Ht : last_dim (shape (tanh a1)) = Some 128).
  { simpl. rewrite S1. apply last_dim_snoc. }
  destruct (Linear_forward_ok (mkLinear 128 (ic * hc) w2 b2) (tanh a1) Ht)
    as (a2 & H2 & S2 & W2).
  simpl in S2. rewrite S1, removelast_last in S2.
  exists a1, a2. repeat split; auto.
  unfold CDEFunc.layers, CDEFunc.init; simpl.
  rewrite H1; simpl. exact H2.
Qed.

(** C4: on every input whose trailing dimension is hidden_channels,
    CDEFunc.forward returns a tensor whose shape is the input's batch prefix
    followed by (hidden_channels, input_channels); it is the affine map to
    width 128, the pointwise tanh, the affine map to width
    input_channels * hidden_channels, and a reshape that keeps the elements. *)
Theorem CDEFunc_forward_shape (ic hc : nat) (w1 : list (list f32))
    (b1 : list f32) (w2 : list (list f32)) (b2 : list f32) (z : Tensor) :
  last_dim (shape z) = Some hc ->
  exists a1 a2 out,
    Linear_forward (mkLinear hc 128 w1 b1) z = Ok a1
    /\ shape a1 = removelast (shape z) ++ [128]
    /\ Linear_forward (mkLinear 128 (ic * hc) w2 b2) (tanh a1) = Ok a2
    /\ shape a2 = removelast (shape z) ++ [ic * hc]
    /\ CDEFunc.forward (CDEFunc.init ic hc w1 b1 w2 b2) z = Ok out
    /\ shape out = removelast (shape z) ++ [hc; ic]
    /\ data out = data a2
    /\ well_formed out.
Proof.
  intros H.
  destruct (layers_ok ic w1 b1 w2 b2 z H) as (a1 & a2 & H1 & S1 & H2 & S2 & W2 & HL).
  exists a1, a2,
    {| shape := removelast (shape z) ++ [hc; ic]; data := data a2 |}.
  repeat split; auto.
  - unfold CDEFunc.forward. rewrite HL; simpl.
    rewrite S2, removelast_last.
    apply view_ok. rewrite S2, !numel_app. simpl. lia.
  - unfold well_formed in *; simpl. rewrite W2, S2, !numel_app. simpl. lia.
Qed.

End CDEFuncFacts.

Section CDEFuncReshape.
Context {FL : Float}.

(** C10: the reshape that ends CDEFunc.forward cannot fail.  Whatever the
    three layers return has the configured output width
    input_channels * hidden_channels as its trailing dimension, so the view
    into (..., hidden_channels, input_channels) is valid; on every input
    whose trailing dimension is hidden_channels the layers return and
    forward returns; and a shape error of forward only comes from an input
    whose trailing dimension is not hidden_channels. *)
Theorem CDEFunc_view_never_fails (ic hc : nat) (w1 : list (list f32))
    (b1 : list f32) (w2 : list (list f32)) (b2 : list f32) :
  let self := CDEFunc.init ic hc w1 b1 w2 b2 in
  (forall z a2,
      CDEFunc.layers self z = Ok a2 ->
      last_dim (shape a2) = Some (out_features (CDEFunc.linear2 self))
      /\ out_features (CDEFunc.linear2 self) = ic * hc
      /\ exists out,
           view a2 (removelast (shape a2) ++ [hc; ic]) = Ok out
           /\ CDEFunc.forward self z = Ok out)
  /\ (forall z,
        last_dim (shape z) = Some hc ->
        exists a2 out,
          CDEFunc.layers self z = Ok a2 /\ CDEFunc.forward self z = Ok out)
  /\ (forall z e,
        CDEFunc.forward self z = Raise e ->
        e = ShapeError /\ last_dim (shape z) <> Some hc).
Proof.
  intros self.
  assert (A : forall z a2,
      CDEFunc.layers self z = Ok a2 ->
      last_dim (shape a2) = Some (out_features (CDEFunc.linear2 self))
      /\ out_features (CDEFunc.linear2 self) = ic * hc
      /\ exists out,
           view a2 (removelast (shape a2) ++ [hc; ic]) = Ok out
           /\ CDEFunc.forward self z = Ok out).
  { intros z a2 HL.
    assert (HL' := HL).
    unfold CDEFunc.layers in HL. subst self. simpl in HL.
    destruct (Linear_forward (mkLinear hc 128 w1 b1) z) as [a1|] eqn:E1;
      [simpl in HL | discriminate].
    apply Linear_forward_shape in HL. destruct HL as (_ & S2 & _).
    simpl in S2.
    split; [simpl; rewrite S2; apply last_dim_snoc|].
    split; [reflexivity|].
    eexists. split.
    - apply view_ok. rewrite S2, removelast_last, !numel_app. simpl. lia.
    - unfold CDEFunc.forward. rewrite HL'. simpl.
      apply view_ok. rewrite S2, removelast_last, !numel_app. simpl. lia. }
  assert (B : forall z,
        last_dim (shape z) = Some hc ->
        exists a2 out,
          CDEFunc.layers self z = Ok a2 /\ CDEFunc.forward self z = Ok out).
  { intros z H.
    destruct (layers_ok ic w1 b1 w2 b2 z H) as (a1 & a2 & _ & _ & _ & _ & _ & HL).
    destruct (A z a2 HL) as (_ & _ & out & _ & HF).
    now exists a2, out. }
  split; [exact A|]. split; [exact B|].
  intros z e HF.
  assert (N : last_dim (shape z) <> Some hc).
  { intros H. destruct (B z H) as (a2 & out & _ & HF'). congruence. }
  split; [|exact N].
  unfold CDEFunc.forward in HF.
  destruct (CDEFunc.layers self z) as [a2|e'] eqn:HL.
  - destruct (A z a2 HL) as (_ & _ & out & Hv & _).
    simpl in HF. subst self. simpl in HF, Hv. congruence.
  - simpl in HF. injection HF as <-.
    unfold CDEFunc.layers in HL. subst self. simpl in HL.
    destruct (Linear_forward (mkLinear hc 128 w1 b1) z) as [a1|e1] eqn:E1;
      simpl in HL.
    + apply Linear_forward_shape in E1. destruct E1 as (_ & S1 & _).
      simpl in S1.
      destruct (Linear_forward_ok (mkLinear 128 (ic * hc) w2 b2) (tanh a1))
        as (a2 & H2 & _); [simpl; rewrite S1; apply last_dim_snoc|].
      congruence.
    + unfold Linear_forward in E1.
      destruct (last_dim (shape z)) as [d|]; [|congruence].
      destruct (d =? in_features (mkLinear hc 128 w1 b1)); congruence.
Qed.

End CDEFuncReshape.

Lemma CDEFunc_forward_shape_witness :
  last_dim (shape Toy.toy_hidden) = Some 3
  /\ exists a1 a2 out,
       Linear_forward (mkLinear 3 128 [] []) Toy.toy_hidden = Ok a1
       /\ shape a1 = removelast (shape Toy.toy_hidden) ++ [128]
       /\ Linear_forward (mkLinear 128 (2 * 3) [] []) (tanh a1) = Ok a2
       /\ shape a2 = removelast (shape Toy.toy_hidden) ++ [2 * 3]
       /\ CDEFunc.forward (CDEFunc.init 2 3 [] [] [] []) Toy.toy_hidden = Ok out
       /\ shape out = removelast (shape Toy.toy_hidden) ++ [3; 2]
       /\ data out = data a2
       /\ well_formed out.
Proof.
  split; [reflexivity|].
  apply (@CDEFunc_forward_shape Toy.toy_float 2 3 [] [] [] [] Toy.toy_hidden).
  reflexivity.
Defined.

(** ** The model's forward pass *)

Section TraceFacts.

Lemma tbind_call {E A B : Type} (ev : E) (r : result A) (f : A -> traced E B) :
  tbind (call ev r) f =
  match r with
  | Ok a => (ev :: fst (f a), snd (f a))
  | Raise e => ([ev], Raise e)
  end.
Proof. unfold tbind, call; simpl. now destruct r. Qed.

Lemma tbind_lift {E A B : Type} (r : result A) (f : A -> traced E B) :
  tbind (lift r) f =
  match r with
  | Ok a => f a
  | Raise e => ([], Raise e)
  end.
Proof.
  unfold tbind, lift; simpl. destruct r; [|reflexivity].
  now destruct (f a).
Qed.

Lemma flat_map_ext_in {A B : Type} (f g : A -> list B) (l : list A) :
  (forall a, In a l -> f a = g a) -> flat_map f l = flat_map g l.
Proof.
  induction l as [|a l IH]; intros H; simpl; [reflexivity|].
  rewrite H by now left. rewrite IH; [reflexivity|].
  intros b Hb. apply H. now right.
Qed.

End TraceFacts.

Section ForwardFacts.
Context {FL : Float} {CL : CDELib}.


(** When every call returns, [forward] has made all seven and returns the
    readout. *)
Lemma forward_returns (self : NeuralCDE.t) (coeffs : list Tensor)
    (initial_t final_t : Tensor) (X : Spline)
    (x0 z0 grid zs z_T pred_y : Tensor) :
  NaturalCubicSpline coeffs = Ok X ->
  evaluate X initial_t = Ok x0 ->
  Linear_forward (NeuralCDE.initial self) x0 = Ok z0 ->
  torch_cat [initial_t; final_t] = Ok grid ->
  cdeint X (CDEFunc.forward (NeuralCDE.func self)) z0 grid = Ok zs ->
  select_dim1 zs 1 = Ok z_T ->
  Linear_forward (NeuralCDE.linear self) z_T = Ok pred_y ->
  NeuralCDE.forward_traced self coeffs initial_t final_t =
  ([NeuralCDE.StepSpline coeffs;
    NeuralCDE.StepEvaluate X initial_t;
    NeuralCDE.StepInitial x0;
    NeuralCDE.StepCat [initial_t; final_t];
    NeuralCDE.StepCdeint X (CDEFunc.forward (NeuralCDE.func self)) z0 grid;
    NeuralCDE.StepSelect zs 1;
    NeuralCDE.StepReadout z_T], Ok pred_y).
Proof.
  intros H1 H2 H3 H4 H5 H6 H7. unfold NeuralCDE.forward_traced.
  rewrite tbind_call, H1; simpl.
  rewrite tbind_call, H2; simpl.
  rewrite tbind_call, H3; simpl.
  rewrite tbind_call, H4; simpl.
  rewrite tbind_call, H5; simpl.
  rewrite tbind_call, H6; simpl.
  rewrite tbind_call, H7; simpl. reflexivity.
Qed.




End ForwardFacts.


Section ForwardShape.
Context {FL : Float} {CL : CDELib}.

Lemma select_dim1_shape (zs : Tensor) (b s : nat) (rest : list nat) (i : nat) :
  shape zs = b :: s :: rest ->
  i < s ->
  exists z, select_dim1 zs i = Ok z /\ shape z = b :: rest.
Proof.
  intros H Hi. unfold select_dim1. rewrite H.
  apply Nat.ltb_lt in Hi. rewrite Hi. eexists; split; reflexivity.
Qed.

Lemma squeeze_last_one (t : Tensor) (s : list nat) :
  shape t = s ++ [1] ->
  shape (squeeze_last t) = s /\ data (squeeze_last t) = data t.
Proof.
  intros H. unfold squeeze_last. rewrite H, last_dim_snoc, removelast_last.
  now split.
Qed.

(** C2, as the code has it: with output_channels = 1, and a solver that
    returns the hidden states with shape (batch, 2, hidden_channels),
    NeuralCDE.forward returns a tensor of shape (batch, 1): the channel
    dimension is still there.  It is the caller's [squeeze(-1)] that gives
    the shape (batch,), one element per sample, without touching the
    elements. *)
Theorem forward_output_shape (ic hc : nat)
    (wi : list (list f32)) (bi : list f32)
    (w1 : list (list f32)) (b1 : list f32)
    (w2 : list (list f32)) (b2 : list f32)
    (wl : list (list f32)) (bl : list f32)
    (coeffs : list Tensor) (initial_t final_t : Tensor)
    (X : Spline) (x0 z0 grid zs : Tensor) (batch : nat) :
  let self := NeuralCDE.init ic hc 1 wi bi w1 b1 w2 b2 wl bl in
  NaturalCubicSpline coeffs = Ok X ->
  evaluate X initial_t = Ok x0 ->
  Linear_forward (NeuralCDE.initial self) x0 = Ok z0 ->
  torch_cat [initial_t; final_t] = Ok grid ->
  cdeint X (CDEFunc.forward (NeuralCDE.func self)) z0 grid = Ok zs ->
  shape zs = [batch; 2; hc] ->
  exists out,
    NeuralCDE.forward self coeffs initial_t final_t = Ok out
    /\ shape out = [batch; 1]
    /\ well_formed out
    /\ shape (squeeze_last out) = [batch]
    /\ data (squeeze_last out) = data out.
Proof.
  intros self HX Hx Hz Hg Hc Hs.
  destruct (@select_dim1_shape zs batch 2 [hc] 1 Hs) as (z_T & Hsel & Hsh);
    [lia|].
  destruct (Linear_forward_ok (NeuralCDE.linear self) z_T) as (out & Ho & So & Wo).
  { rewrite Hsh. reflexivity. }
  rewrite Hsh in So. simpl in So.
  exists out. split; [|split; [exact So|split; [exact Wo|]]].
  - unfold NeuralCDE.forward.
    now rewrite (forward_returns self coeffs initial_t final_t
                   HX Hx Hz Hg Hc Hsel Ho).
  - apply (@squeeze_last_one out [batch]). exact So.
Qed.

End ForwardShape.

(** The statement "forward returns the shape (batch,)" fails on a batch of
    two paths: the output has shape (2, 1). *)
Lemma forward_output_keeps_channel_dim :
  exists out,
    @NeuralCDE.forward Toy.toy_float Toy.toy_cdelib
      Toy.toy_model Toy.toy_coeffs Toy.toy_t0 Toy.toy_t1 = Ok out
    /\ shape out = [2; 1]
    /\ shape out <> [2].
Proof.
  exists (@mkTensor Toy.toy_float [2; 1] [90; 330]%Z).
  split; [reflexivity|]. split; [reflexivity | discriminate].
Qed.

Lemma forward_output_shape_witness :
  @NaturalCubicSpline _ Toy.toy_cdelib Toy.toy_coeffs = Ok Toy.toy_coeffs
  /\ @evaluate _ Toy.toy_cdelib Toy.toy_coeffs Toy.toy_t0 = Ok Toy.toy_x0
  /\ shape Toy.toy_zs = [2; 2; 3]
  /\ exists out,
       @NeuralCDE.forward Toy.toy_float Toy.toy_cdelib
         Toy.toy_model Toy.toy_coeffs Toy.toy_t0 Toy.toy_t1 = Ok out
       /\ shape out = [2; 1]
       /\ well_formed out
       /\ shape (squeeze_last out) = [2]
       /\ data (squeeze_last out) = data out.
Proof.
  split; [reflexivity|]. split; [reflexivity|]. split; [reflexivity|].
  apply (@forward_output_shape Toy.toy_float Toy.toy_cdelib 2 3
           Toy.toy_wi Toy.toy_bi [] [] [] [] Toy.toy_wl Toy.toy_bl
           Toy.toy_coeffs Toy.toy_t0 Toy.toy_t1
           Toy.toy_coeffs Toy.toy_x0 Toy.toy_z0 Toy.toy_grid Toy.toy_zs 2);
    reflexivity.
Defined.

(** ** Rows of a flat storage *)

Section RowFacts.
Context {A : Type}.

Lemma slice_concat (w : nat) (rs : list (list A)) (i : nat) :
  Forall (fun r => length r = w) rs ->
  i < length rs ->
  slice (i * w) w (concat rs) = nth i rs [].
Proof.
  intros HF. revert i. induction HF as [|r rs Hr HF IH]; intros i Hi.
  - simpl in Hi. lia.
  - destruct i as [|i]; simpl; unfold slice.
    + simpl. rewrite firstn_app, Hr, Nat.sub_diag, firstn_all2 by lia.
      simpl. now rewrite app_nil_r.
    + rewrite skipn_app, Hr.
      rewrite skipn_all2 by lia. simpl.
      replace (w + i * w - w) with (i * w) by lia.
      apply IH. simpl in Hi. lia.
Qed.

Lemma slice_singletons (v : list A) (i : nat) (d : A) :
  i < length v -> slice (i * 1) 1 v = [nth i v d].
Proof.
  intros Hi.
  assert (E : concat (map (fun x => [x]) v) = v).
  { clear. induction v as [|x v IH]; simpl; [reflexivity | now rewrite IH]. }
  rewrite <- E at 1.
  rewrite slice_concat.
  - rewrite nth_indep with (d' := [d]) by now rewrite length_map.
    now rewrite (map_nth (fun x => [x])).
  - apply Forall_forall. intros r Hr. apply in_map_iff in Hr.
    now destruct Hr as (x & <- & _).
  - now rewrite length_map.
Qed.

Lemma map_nth_seq_all (l : list A) (d : A) :
  map (fun i => nth i l d) (seq 0 (length l)) = l.
Proof.
  induction l as [|a l IH]; simpl; [reflexivity|].
  f_equal. rewrite <- seq_shift, map_map. exact IH.
Qed.

Lemma perm_in_range (n : nat) (perm : list nat) :
  Permutation (seq 0 n) perm ->
  length perm = n /\ forallb (fun i => i <? n) perm = true.
Proof.
  intros P. split.
  - rewrite <- (Permutation_length P). apply length_seq.
  - apply forallb_forall. intros i Hi. apply Nat.ltb_lt.
    apply Permutation_sym in P.
    apply (Permutation_in _ P) in Hi. apply in_seq in Hi. lia.
Qed.

(** Gathering the entries of [l] along a permutation of its positions
    rearranges [l]. *)
Lemma gather_permutation (l : list A) (d : A) (perm : list nat) :
  Permutation (seq 0 (length l)) perm ->
  Permutation l (map (fun i => nth i l d) perm).
Proof.
  intros P. rewrite <- (map_nth_seq_all l d) at 1.
  now apply Permutation_map.
Qed.

Lemma flat_map_singleton {B : Type} (f : B -> A) (l : list B) :
  flat_map (fun x => [f x]) l = map f l.
Proof. induction l as [|x l IH]; simpl; [reflexivity | now rewrite IH]. Qed.

End RowFacts.

(** ** The data generator *)

Section GetDataFacts.
Context {FL : Float} {RG : RandomGen}.

Lemma labels_eq : labels = repeat (Rlit 1) 64 ++ repeat (Rlit 0) 64.
Proof. reflexivity. Qed.

Lemma Rlit_1_neq_0 : Rlit 1 <> Rlit 0.
Proof.
  intros E. pose proof Rfeq_1_0 as H. rewrite E, Rfeq_0_0 in H. discriminate.
Qed.

Lemma count_eq_app (v : f32) (l1 l2 : list f32) :
  count_eq v (l1 ++ l2) = count_eq v l1 + count_eq v l2.
Proof. unfold count_eq. now rewrite filter_app, length_app. Qed.

Lemma count_eq_repeat (v x : f32) (n : nat) :
  count_eq v (repeat x n) = if Rfeq x v then n else 0.
Proof.
  unfold count_eq. induction n as [|n IH]; simpl.
  - now destruct (Rfeq x v).
  - destruct (Rfeq x v); simpl; [now rewrite IH | exact IH].
Qed.

Lemma count_eq_permutation (v : f32) (l l' : list f32) :
  Permutation l l' -> count_eq v l = count_eq v l'.
Proof.
  unfold count_eq. induction 1 as [|x l l' P IH|x y l|l l' l'' P1 IH1 P2 IH2];
    simpl.
  - reflexivity.
  - destruct (Rfeq x v); simpl; now rewrite IH.
  - destruct (Rfeq x v), (Rfeq y v); reflexivity.
  - now rewrite IH1.
Qed.

Lemma length_labels : length labels = 128.
Proof. reflexivity. Qed.

End GetDataFacts.

Section GetDataReturns.
Context {FL : Float} {RG : RandomGen}.

Lemma draw_perm_spec (g : Generator) :
  Permutation (seq 0 128) (fst (draw_perm g)).
Proof. apply torch_randperm_perm. Qed.

(** [get_data] always returns: the shuffle indexes inside the 128 samples. *)
Lemma get_data_returns (g : Generator) :
  get_data g =
  (Ok (tensor1 (linspace (Rlit 0) (Rlit 99) 100),
       {| shape := [128; 100; 2];
          data := flat_map
                    (fun i => slice (i * 200) 200
                                (concat (map (@concat f32)
                                   (trajectories (fst (draw_start g))
                                                 (fst (draw_noise g))))))
                    (fst (draw_perm g)) |},
       {| shape := [128];
          data := map (fun i => nth i labels (Rlit 0)) (fst (draw_perm g)) |}),
   snd (draw_perm g)).
Proof.
  pose proof (draw_perm_spec g) as P.
  destruct (perm_in_range 128 P) as [Hl Hr].
  unfold get_data. unfold draw_perm, draw_noise, draw_start in *.
  destruct (torch_rand 128 g) as [r1 g1]. cbn [fst snd] in *.
  destruct (torch_rand (128 * 100 * 2) g1) as [r2 g2]. cbn [fst snd] in *.
  destruct (torch_randperm 128 g2) as [perm g3]. cbn [fst snd] in *.
  f_equal.
  unfold index_select0, tensor3, tensor1. cbn [shape data].
  rewrite Hr. cbn [rbind].
  change (length labels) with 128. rewrite Hr. cbn [rbind].
  rewrite Hl.
  change (numel [100; 2]) with 200. change (numel []) with 1.
  do 3 f_equal.
  rewrite <- flat_map_singleton.
  apply flat_map_ext_in. intros i Hi.
  apply slice_singletons.
  rewrite forallb_forall in Hr. apply Hr in Hi. apply Nat.ltb_lt in Hi.
  exact Hi.
Qed.

(** C3: before the shuffle exactly 64 of the 128 labels are 1 and exactly 64
    are 0; get_data returns, and the labels it returns are a rearrangement
    of those, so the same counts hold after the shuffle. *)
Theorem labels_balanced_and_shuffled (g : Generator) :
  length labels = 128
  /\ count_eq (Rlit 1) labels = 64
  /\ count_eq (Rlit 0) labels = 64
  /\ exists t X y,
       fst (get_data g) = Ok (t, X, y)
       /\ Permutation labels (data y)
       /\ length (data y) = 128
       /\ count_eq (Rlit 1) (data y) = 64
       /\ count_eq (Rlit 0) (data y) = 64.
Proof.
  assert (C1 : count_eq (Rlit 1) labels = 64).
  { rewrite labels_eq, count_eq_app, !count_eq_repeat.
    now rewrite Rfeq_1_1, Rfeq_0_1. }
  assert (C0 : count_eq (Rlit 0) labels = 64).
  { rewrite labels_eq, count_eq_app, !count_eq_repeat.
    now rewrite Rfeq_1_0, Rfeq_0_0. }
  split; [reflexivity|]. split; [exact C1|]. split; [exact C0|].
  rewrite get_data_returns. cbn [fst].
  do 3 eexists. split; [reflexivity|]. cbn [data].
  assert (P : Permutation labels
                (map (fun i => nth i labels (Rlit 0)) (fst (draw_perm g)))).
  { apply gather_permutation. apply draw_perm_spec. }
  split; [exact P|].
  split; [now rewrite <- (Permutation_length P)|].
  split.
  - now rewrite <- (count_eq_permutation (Rlit 1) P).
  - now rewrite <- (count_eq_permutation (Rlit 0) P).
Qed.

End GetDataReturns.

(** ** Elementwise operations and slices of nested rows *)

Section ZipFacts.
Context {A B C : Type}.

Lemma length_zip_with (f : A -> B -> C) (l1 : list A) (l2 : list B) :
  length (zip_with f l1 l2) = Nat.min (length l1) (length l2).
Proof.
  revert l2. induction l1 as [|a l1 IH]; intros [|b l2]; simpl; auto.
Qed.

Lemma nth_zip_with (f : A -> B -> C) (l1 : list A) (l2 : list B) (i : nat)
    (da : A) (db : B) (dc : C) :
  i < length l1 -> i < length l2 ->
  nth i (zip_with f l1 l2) dc = f (nth i l1 da) (nth i l2 db).
Proof.
  revert l2 i. induction l1 as [|a l1 IH]; intros [|b l2] [|i] H1 H2;
    simpl in *; try lia; auto.
  apply IH; lia.
Qed.

Lemma Forall_zip_with (P : C -> Prop) (f : A -> B -> C) (l1 : list A)
    (l2 : list B) :
  (forall a b, In a l1 -> In b l2 -> P (f a b)) ->
  Forall P (zip_with f l1 l2).
Proof.
  revert l2. induction l1 as [|a l1 IH]; intros [|b l2] H; simpl;
    try constructor.
  - apply H; now left.
  - apply IH. intros a' b' Ha Hb. apply H; now right.
Qed.

End ZipFacts.

Section SliceFacts.
Context {A : Type}.

Lemma length_slice (off len : nat) (d : list A) :
  off + len <= length d -> length (slice off len d) = len.
Proof.
  intros H. unfold slice. rewrite length_firstn, length_skipn. lia.
Qed.

Lemma length_rows (n w : nat) (d : list A) : length (rows n w d) = n.
Proof. unfold rows. now rewrite length_map, length_seq. Qed.

Lemma nth_rows (n w : nat) (d : list A) (i : nat) :
  i < n -> nth i (rows n w d) [] = slice (i * w) w d.
Proof.
  intros H. unfold rows.
  rewrite nth_indep with (d' := slice (0 * w) w d)
    by now rewrite length_map, length_seq.
  rewrite (map_nth (fun k => slice (k * w) w d)).
  now rewrite seq_nth.
Qed.

Lemma Forall_rows (n w : nat) (d : list A) :
  n * w <= length d -> Forall (fun r => length r = w) (rows n w d).
Proof.
  intros H. unfold rows. apply Forall_forall. intros r Hr.
  apply in_map_iff in Hr. destruct Hr as (k & <- & Hk).
  apply in_seq in Hk. apply length_slice. nia.
Qed.

Lemma length_concat_const (w : nat) (l : list (list A)) :
  Forall (fun r => length r = w) l -> length (concat l) = length l * w.
Proof.
  induction 1 as [|r l Hr HF IH]; simpl; [reflexivity|].
  now rewrite length_app, Hr, IH.
Qed.

Lemma nth_map_prefix (n : nat) (f : A -> A) (l : list A) (i : nat) (d : A) :
  i < length l ->
  nth i (map_prefix n f l) d = if i <? n then f (nth i l d) else nth i l d.
Proof.
  intros Hi. unfold map_prefix.
  destruct (i <? n) eqn:E.
  - apply Nat.ltb_lt in E.
    rewrite app_nth1 by (rewrite length_map, length_firstn; lia).
    rewrite nth_indep with (d' := f d)
      by (rewrite length_map, length_firstn; lia).
    rewrite map_nth. f_equal.
    rewrite nth_firstn. apply Nat.ltb_lt in E. now rewrite E.
  - apply Nat.ltb_ge in E.
    rewrite app_nth2 by (rewrite length_map, length_firstn; lia).
    rewrite length_map, length_firstn, nth_skipn. f_equal. lia.
Qed.

Lemma length_map_prefix (n : nat) (f : A -> A) (l : list A) :
  length (map_prefix n f l) = length l.
Proof.
  unfold map_prefix.
  rewrite length_app, length_map, length_firstn, length_skipn. lia.
Qed.

End SliceFacts.

Lemma nth_map_lt {A B : Type} (f : A -> B) (l : list A) (i : nat) (d : A)
    (d' : B) :
  i < length l -> nth i (map f l) d' = f (nth i l d).
Proof.
  intros H. rewrite nth_indep with (d' := f d) by now rewrite length_map.
  apply map_nth.
Qed.

(** ** The generated samples, one by one *)

Section Trajectories.
Context {FL : Float}.
Variable r_start : list f32.
Hypothesis Hstart : length r_start = 128.

Let times : list (list f32) := spiral_times (start_phases r_start).

Lemma length_times : length times = 128.
Proof.
  unfold times, spiral_times, start_phases. now rewrite !length_map.
Qed.

Lemma length_nth_times (k : nat) : k < 128 -> length (nth k times []) = 100.
Proof.
  intros Hk. unfold times, spiral_times.
  rewrite nth_map_lt with (d := Rlit 0)
    by (unfold start_phases; rewrite length_map; lia).
  now rewrite length_map, linspace_length.
Qed.

Lemma nth_flipped_x_pos (k : nat) :
  k < 128 ->
  nth k (flipped_x_pos times) [] =
  if k <? 64
  then map (fun v => Rmul v (Rlit (-1))) (map x_curve (nth k times []))
  else map x_curve (nth k times []).
Proof.
  intros Hk. unfold flipped_x_pos.
  rewrite nth_map_prefix by (rewrite length_map, length_times; lia).
  rewrite nth_map_lt with (d := []) by (rewrite length_times; lia).
  reflexivity.
Qed.

Lemma length_nth_flipped_x_pos (k : nat) :
  k < 128 -> length (nth k (flipped_x_pos times) []) = 100.
Proof.
  intros Hk. rewrite nth_flipped_x_pos by exact Hk.
  destruct (k <? 64); rewrite ?length_map; now apply length_nth_times.
Qed.

Lemma nth_positions (k : nat) :
  k < 128 ->
  nth k (positions times) [] =
  zip_with (fun a b => [a; b]) (nth k (flipped_x_pos times) [])
           (map y_curve (nth k times [])).
Proof.
  intros Hk. unfold positions.
  rewrite nth_zip_with with (da := []) (db := []).
  - f_equal. apply nth_map_lt. rewrite length_times; lia.
  - unfold flipped_x_pos. rewrite length_map_prefix, length_map, length_times.
    lia.
  - rewrite length_map, length_times. lia.
Qed.

Lemma length_positions : length (positions times) = 128.
Proof.
  unfold positions. rewrite length_zip_with.
  unfold flipped_x_pos.
  rewrite length_map_prefix, !length_map, length_times. reflexivity.
Qed.

Variable r_noise : list f32.
Hypothesis Hnoise : length r_noise = 128 * 100 * 2.

Lemma nth_additive_noise (k : nat) :
  k < 128 ->
  nth k (additive_noise r_noise) [] =
  rows 100 2
    (slice (k * 200) 200
       (map (fun v => Rsub (Rmul (Rlit (6 # 100)) v) (Rlit (3 # 100)))
            r_noise)).
Proof.
  intros Hk. unfold additive_noise.
  rewrite nth_map_lt with (d := []) by (rewrite length_rows; lia).
  now rewrite nth_rows by lia.
Qed.

Lemma length_additive_noise : length (additive_noise r_noise) = 128.
Proof. unfold additive_noise. now rewrite length_map, length_rows. Qed.

Lemma length_trajectories : length (trajectories r_start r_noise) = 128.
Proof.
  unfold trajectories. fold times.
  now rewrite length_zip_with, length_positions, length_additive_noise.
Qed.

Lemma nth_trajectories (k : nat) :
  k < 128 ->
  nth k (trajectories r_start r_noise) [] =
  zip_with (zip_with Radd) (nth k (positions times) [])
           (nth k (additive_noise r_noise) []).
Proof.
  intros Hk. unfold trajectories. fold times.
  apply nth_zip_with.
  - rewrite length_positions; lia.
  - rewrite length_additive_noise; lia.
Qed.

(** Every sample has 100 time steps of 2 channels. *)
Lemma sample_size (k : nat) :
  k < 128 -> length (concat (nth k (trajectories r_start r_noise) [])) = 200.
Proof.
  intros Hk. rewrite nth_trajectories by exact Hk.
  rewrite length_concat_const with (w := 2).
  - rewrite length_zip_with, nth_positions, length_zip_with by exact Hk.
    rewrite length_nth_flipped_x_pos, length_map, length_nth_times by exact Hk.
    rewrite nth_additive_noise, length_rows by exact Hk. reflexivity.
  - apply Forall_zip_with. intros a b Ha Hb.
    rewrite length_zip_with.
    rewrite nth_positions in Ha by exact Hk.
    assert (La : length a = 2).
    { revert Ha. generalize (nth k (flipped_x_pos times) []).
      generalize (map y_curve (nth k times [])).
      intros ys xs. revert ys.
      induction xs as [|x xs IH]; intros [|y ys]; simpl; try tauto.
      intros [<- | H]; [reflexivity | eauto]. }
    assert (Lb : length b = 2).
    { rewrite nth_additive_noise in Hb by exact Hk.
      pose proof (@Forall_rows f32 100 2
        (slice (k * 200) 200
           (map (fun v => Rsub (Rmul (Rlit (6 # 100)) v) (Rlit (3 # 100)))
                r_noise))) as F.
      rewrite Forall_forall in F. apply F; [|exact Hb].
      rewrite length_slice; [lia|].
      rewrite length_map, Hnoise. lia. }
    now rewrite La, Lb.
Qed.

Lemma trajectories_uniform :
  Forall (fun r => length r = 200)
         (map (@concat f32) (trajectories r_start r_noise)).
Proof.
  apply Forall_forall. intros r Hr.
  apply in_map_iff in Hr. destruct Hr as (s & <- & Hs).
  apply In_nth with (d := []) in Hs. destruct Hs as (k & Hk & <-).
  rewrite length_trajectories in Hk. now apply sample_size.
Qed.

End Trajectories.

Section Shuffle.
Context {FL : Float} {RG : RandomGen}.

Lemma nth_labels (k : nat) :
  k < 128 -> nth k labels (Rlit 0) = if k <? 64 then Rlit 1 else Rlit 0.
Proof.
  intros Hk. unfold labels.
  rewrite nth_map_prefix by (rewrite repeat_length; exact Hk).
  destruct (k <? 64); [reflexivity|]. apply nth_repeat.
Qed.

Lemma length_draw_start (g : Generator) : length (fst (draw_start g)) = 128.
Proof. apply torch_rand_length. Qed.

Lemma length_draw_noise (g : Generator) :
  length (fst (draw_noise g)) = 128 * 100 * 2.
Proof. apply torch_rand_length. Qed.

(** The row [i] of the shuffled [X] is the generated sample [perm[i]]. *)
Lemma shuffled_sample (g : Generator) (i : nat) :
  i < 128 ->
  slice (i * 200) 200
    (flat_map
       (fun j => slice (j * 200) 200
                   (concat (map (@concat f32)
                      (trajectories (fst (draw_start g)) (fst (draw_noise g))))))
       (fst (draw_perm g)))
  = concat (nth (nth i (fst (draw_perm g)) 0)
                (trajectories (fst (draw_start g)) (fst (draw_noise g))) []).
Proof.
  intros Hi.
  pose proof (draw_perm_spec g) as P.
  destruct (perm_in_range 128 P) as [Hl Hr].
  rewrite forallb_forall in Hr.
  set (X0 := trajectories (fst (draw_start g)) (fst (draw_noise g))).
  assert (U : Forall (fun r => length r = 200) (map (@concat f32) X0))
    by (apply trajectories_uniform;
        first [apply length_draw_start | apply length_draw_noise]).
  assert (L : length X0 = 128)
    by (apply length_trajectories;
        first [apply length_draw_start | apply length_draw_noise]).
  assert (R : forall j, j < 128 ->
            slice (j * 200) 200 (concat (map (@concat f32) X0))
            = concat (nth j X0 [])).
  { intros j Hj. rewrite slice_concat.
    - apply nth_map_lt. now rewrite L.
    - exact U.
    - now rewrite length_map, L. }
  rewrite flat_map_concat_map, slice_concat.
  - rewrite nth_map_lt with (d := 0) by now rewrite Hl.
    apply R. apply Nat.ltb_lt. apply Hr. apply nth_In. now rewrite Hl.
  - apply Forall_forall. intros r Hr'. apply in_map_iff in Hr'.
    destruct Hr' as (j & <- & Hj).
    apply Hr in Hj. apply Nat.ltb_lt in Hj. rewrite R by exact Hj.
    rewrite Forall_forall in U. apply U. apply in_map. apply nth_In.
    now rewrite L.
  - now rewrite length_map, Hl.
Qed.

(** C9: the shuffle keeps every trajectory with its label.  For each
    position i of the returned dataset there is one generated index k (the
    i-th entry of the permutation) such that the returned sample i is the
    generated sample k and the returned label i is the generated label k;
    that label is 1 exactly when k is among the first 64, which is exactly
    when the x channel of sample k was multiplied by -1. *)
Theorem pairing_survives_shuffle (g : Generator) (i : nat) :
  i < 128 ->
  let perm := fst (draw_perm g) in
  let times := spiral_times (start_phases (fst (draw_start g))) in
  let generated := trajectories (fst (draw_start g)) (fst (draw_noise g)) in
  exists t X y k,
    fst (get_data g) = Ok (t, X, y)
    /\ nth_error perm i = Some k
    /\ k < 128
    /\ slice (i * 200) 200 (data X) = concat (nth k generated [])
    /\ nth i (data y) (Rlit 0) = nth k labels (Rlit 0)
    /\ (nth i (data y) (Rlit 0) = Rlit 1 <-> k < 64)
    /\ nth k generated [] =
       zip_with (zip_with Radd)
         (zip_with (fun a b => [a; b])
            (if k <? 64
             then map (fun v => Rmul v (Rlit (-1)))
                      (map x_curve (nth k times []))
             else map x_curve (nth k times []))
            (map y_curve (nth k times [])))
         (nth k (additive_noise (fst (draw_noise g))) []).
Proof.
  intros Hi perm times generated.
  pose proof (draw_perm_spec g) as P. fold perm in P.
  destruct (perm_in_range 128 P) as [Hl Hr].
  rewrite forallb_forall in Hr.
  set (k := nth i perm 0).
  assert (Hin : In k perm) by (apply nth_In; now rewrite Hl).
  assert (Hk : k < 128) by (apply Nat.ltb_lt; now apply Hr).
  rewrite get_data_returns. cbn [fst].
  do 3 eexists. exists k. split; [reflexivity|]. cbn [data].
  assert (Hy : nth i (map (fun j => nth j labels (Rlit 0)) perm) (Rlit 0)
               = nth k labels (Rlit 0)).
  { unfold k.
    apply (nth_map_lt (fun j => nth j labels (Rlit 0)) perm 0 (Rlit 0)).
    now rewrite Hl. }
  split; [apply nth_error_nth'; now rewrite Hl|].
  split; [exact Hk|].
  split; [now apply shuffled_sample|].
  split; [exact Hy|].
  split.
  - fold perm. rewrite Hy, nth_labels by exact Hk.
    destruct (k <? 64) eqn:E.
    + apply Nat.ltb_lt in E. tauto.
    + apply Nat.ltb_ge in E. split; [|lia].
      intros H. symmetry in H. now apply Rlit_1_neq_0 in H.
  - unfold generated.
    rewrite nth_trajectories
      by first [exact Hk | apply length_draw_start | apply length_draw_noise].
    rewrite nth_positions by first [exact Hk | apply length_draw_start].
    rewrite nth_flipped_x_pos by first [exact Hk | apply length_draw_start].
    reflexivity.
Qed.

(** get_data reads the generator through its three draws only. *)
Lemma get_data_depends_on_draws (g1 g2 : Generator) :
  fst (draw_start g1) = fst (draw_start g2) ->
  fst (draw_noise g1) = fst (draw_noise g2) ->
  fst (draw_perm g1) = fst (draw_perm g2) ->
  fst (get_data g1) = fst (get_data g2).
Proof.
  intros H1 H2 H3. rewrite !get_data_returns. cbn [fst].
  now rewrite H1, H2, H3.
Qed.

End Shuffle.

Lemma pairing_survives_shuffle_witness :
  5 < 128
  /\ exists t X y k,
       fst (@get_data Toy.toy_float Toy.toy_random 0) = Ok (t, X, y)
       /\ nth_error (fst (@draw_perm Toy.toy_float Toy.toy_random 0)) 5
          = Some k
       /\ k < 128
       /\ slice (5 * 200) 200 (data X)
          = concat (nth k (@trajectories Toy.toy_float
                             (fst (@draw_start _ Toy.toy_random 0))
                             (fst (@draw_noise _ Toy.toy_random 0))) [])
       /\ (nth 5 (data y) (@Rlit Toy.toy_float 0) = @Rlit Toy.toy_float 1
           <-> k < 64).
Proof.
  split; [lia|].
  destruct (@pairing_survives_shuffle Toy.toy_float Toy.toy_random 0 5)
    as (t & X & y & k & H1 & H2 & H3 & H4 & _ & H6 & _); [lia|].
  exists t, X, y, k. repeat split; try assumption; apply H6.
Defined.

(** ** Two runs of the data generator *)

Section TwoRuns.
Context {FL : Float}.





(** What is assembled from a permutation of the 128 positions. *)
Lemma assemble_labels (r_start r_noise : list f32) (perm : list nat) :
  Permutation (seq 0 128) perm ->
  exists t X,
    assemble r_start r_noise perm
    = Ok (t, X, {| shape := [128];
                   data := map (fun i => nth i labels (Rlit 0)) perm |}).
Proof.
  intros P. destruct (perm_in_range 128 P) as [Hl Hr].
  unfold assemble, index_select0, tensor3, tensor1. cbn [shape data].
  rewrite Hr. cbn [rbind].
  change (length labels) with 128. rewrite Hr. cbn [rbind].
  rewrite Hl. change (numel []) with 1.
  do 2 eexists. do 3 f_equal.
  rewrite <- flat_map_singleton.
  apply flat_map_ext_in. intros i Hi.
  apply slice_singletons.
  rewrite forallb_forall in Hr. apply Hr in Hi. now apply Nat.ltb_lt in Hi.
Qed.

(** The determinism of the draws is needed: on a source that may answer one
    state with different permutations, two runs from one state return
    different labels. *)
Lemma get_data_needs_deterministic_draws :
  exists (s s1 s2 : @SourceState FL any_source)
         (out1 out2 : result (Tensor * Tensor * Tensor)),
    get_data_run s out1 s1 /\ get_data_run s out2 s2 /\ out1 <> out2.
Proof.
  set (r1 := repeat (Rlit 0) 128).
  set (r2 := repeat (Rlit 0) (128 * 100 * 2)).
  assert (P1 : Permutation (seq 0 128) (seq 0 128)) by apply Permutation_refl.
  assert (P2 : Permutation (seq 0 128) (127 :: seq 0 127)).
  { change (seq 0 128) with (seq 0 (S 127)). rewrite seq_S.
    apply Permutation_sym, Permutation_cons_append. }
  exists tt, tt, tt, (assemble r1 r2 (seq 0 128)),
         (assemble r1 r2 (127 :: seq 0 127)).
  split; [|split].
  - apply (@GetDataRun FL any_source tt r1 r2 (seq 0 128) tt tt tt);
      [apply repeat_length | apply repeat_length | exact P1].
  - apply (@GetDataRun FL any_source tt r1 r2 (127 :: seq 0 127) tt tt tt);
      [apply repeat_length | apply repeat_length | exact P2].
  - destruct (assemble_labels r1 r2 P1) as (t1 & X1 & ->).
    destruct (assemble_labels r1 r2 P2) as (t2 & X2 & ->).
    intros E.
    assert (D : map (fun i => nth i labels (Rlit 0)) (seq 0 128)
                = map (fun i => nth i labels (Rlit 0)) (127 :: seq 0 127))
      by congruence.
    apply (f_equal (fun l => nth 0 l (Rlit 0))) in D.
    change (seq 0 128) with (0 :: seq 1 127) in D. cbn [map nth] in D.
    rewrite !nth_labels in D by lia.
    change (0 <? 64) with true in D. change (127 <? 64) with false in D.
    now apply Rlit_1_neq_0 in D.
Qed.

End TwoRuns.



(** ** Schedules of traced runs *)

Section Schedules.
Context {E K : Type}.
Variable kind : E -> K.

Lemma follows_tret {A : Type} (a : A) : follows kind [] (@tret E A a).
Proof. reflexivity. Qed.

Lemma follows_call {A : Type} (ev : E) (r : result A) :
  follows kind [kind ev] (call ev r).
Proof.
  unfold follows, call; simpl. destruct r; [reflexivity|].
  now exists [].
Qed.

Lemma follows_lift {A : Type} (r : result A) : follows kind [] (@lift E A r).
Proof.
  unfold follows, lift; simpl. destruct r; [reflexivity|]. now exists [].
Qed.

Lemma follows_tbind {A B : Type} (s1 s2 : list K) (m : traced E A)
    (f : A -> traced E B) :
  follows kind s1 m ->
  (forall a, snd m = Ok a -> follows kind s2 (f a)) ->
  follows kind (s1 ++ s2) (tbind m f).
Proof.
  unfold follows, tbind. intros H1 H2.
  destruct (snd m) as [a|e] eqn:Em.
  - specialize (H2 a eq_refl). cbn [fst snd].
    destruct (snd (f a)).
    + now rewrite map_app, H1, H2.
    + destruct H2 as (rest & ->). exists rest.
      now rewrite map_app, H1, app_assoc.
  - destruct H1 as (rest & ->). cbn [fst snd].
    exists (rest ++ s2). now rewrite app_assoc.
Qed.

Lemma follows_for_each {S X : Type} (sched : list K) (xs : list X)
    (body : S -> X -> traced E S) (s : S) :
  (forall s x, In x xs -> follows kind sched (body s x)) ->
  follows kind (concat (repeat sched (length xs))) (for_each xs body s).
Proof.
  revert s. induction xs as [|x xs IH]; intros s H; simpl.
  - apply follows_tret.
  - apply follows_tbind.
    + apply H. now left.
    + intros s' _. apply IH. intros s0 x0 Hx. apply H. now right.
Qed.

End Schedules.

Section Loops.
Context {E S X : Type}.
Variable body : S -> X -> traced E S.

(** A loop that returns ran its body once per element, in order, each
    iteration returning; its trace is the iterations' traces put together. *)
Lemma for_each_returns (xs : list X) (s s' : S) :
  snd (for_each xs body s) = Ok s' ->
  exists trs,
    fst (for_each xs body s) = concat trs
    /\ Forall2 (fun x tr => exists s1 s2, body s1 x = (tr, Ok s2)) xs trs.
Proof.
  revert s. induction xs as [|x xs IH]; intros s H; simpl in *.
  - exists []. split; [reflexivity | constructor].
  - unfold tbind in *. destruct (body s x) as [tr r] eqn:Eb.
    cbn [fst snd] in *. destruct r as [s1|e]; [|discriminate].
    cbn [fst snd] in *.
    destruct (IH s1 H) as (trs & Ht & HF).
    exists (tr :: trs). split; [simpl; now rewrite Ht|].
    constructor; [|exact HF]. now exists s, s1.
Qed.

(** One step of a loop that returns. *)
Lemma for_each_cons_returns (x : X) (xs : list X) (s s' : S) :
  snd (for_each (x :: xs) body s) = Ok s' ->
  exists tr s1,
    body s x = (tr, Ok s1)
    /\ snd (for_each xs body s1) = Ok s'
    /\ fst (for_each (x :: xs) body s) = tr ++ fst (for_each xs body s1).
Proof.
  simpl. unfold tbind. destruct (body s x) as [tr r].
  cbn [fst snd]. destruct r as [s1|e]; [|discriminate].
  cbn [fst snd]. intros H. now exists tr, s1.
Qed.

(** A quantity that every iteration changes in the same way. *)
Lemma for_each_measure {M : Type} (f : S -> M) (h : M -> M) (xs : list X)
    (s s' : S) :
  (forall s x s', snd (body s x) = Ok s' -> f s' = h (f s)) ->
  snd (for_each xs body s) = Ok s' ->
  f s' = Nat.iter (length xs) h (f s).
Proof.
  intros Hb. revert s. induction xs as [|x xs IH]; intros s H; simpl in *.
  - now injection H as <-.
  - unfold tbind in H. destruct (snd (body s x)) as [s1|e] eqn:Eb;
      [|discriminate].
    cbn [snd] in H. rewrite (IH s1 H), (Hb s x s1 Eb).
    clear. induction (length xs) as [|n IHn]; simpl; [reflexivity|].
    now rewrite IHn.
Qed.

End Loops.

(** ** Runs that return *)

Section Returns.
Context {E : Type}.

Lemma tbind_returns {A B : Type} (m : traced E A) (f : A -> traced E B)
    (tr : list E) (b : B) :
  tbind m f = (tr, Ok b) ->
  exists tr1 a tr2, m = (tr1, Ok a) /\ f a = (tr2, Ok b) /\ tr = tr1 ++ tr2.
Proof.
  unfold tbind. destruct m as [tr1 r]. cbn [fst snd].
  destruct r as [a|e]; [|discriminate].
  destruct (f a) as [tr2 r2] eqn:Ef. cbn [fst snd].
  intros [= <- ->]. now exists tr1, a, tr2.
Qed.

Lemma call_returns {A : Type} (ev : E) (r : result A) (tr : list E) (a : A) :
  call ev r = (tr, Ok a) -> tr = [ev] /\ r = Ok a.
Proof. unfold call. now intros [= <- ->]. Qed.

Lemma lift_returns {A : Type} (r : result A) (tr : list E) (a : A) :
  @lift E A r = (tr, Ok a) -> tr = [] /\ r = Ok a.
Proof. unfold lift. now intros [= <- ->]. Qed.

Lemma tret_returns {A : Type} (a b : A) (tr : list E) :
  @tret E A a = (tr, Ok b) -> tr = [] /\ a = b.
Proof. unfold tret. now intros [= <- ->]. Qed.

End Returns.

(** Takes apart a hypothesis saying that a traced computation returned. *)
Ltac returned H :=
  let tr1 := fresh "tr" in
  let a := fresh "v" in
  let tr2 := fresh "tr" in
  let H1 := fresh "Hm" in
  let H2 := fresh "Hk" in
  let Ht := fresh "Ht" in
  apply tbind_returns in H;
  destruct H as (tr1 & a & tr2 & H1 & H2 & Ht);
  first [ apply call_returns in H1 | apply lift_returns in H1 ];
  destruct H1 as [? H1]; subst.

(** ** The training loop *)

Section TrainFacts.
Context {FL : Float} {CL : CDELib} {RG : RandomGen} {TR : Trainer}.

Lemma batch_indices_128 :
  batch_indices 128 32 = [seq 0 32; seq 32 32; seq 64 32; seq 96 32].
Proof. reflexivity. Qed.

Lemma train_batch_follows (train_t : Tensor) (st : Script.state)
    (batch : list Tensor) :
  follows Script.tag_of Script.batch_tags (Script.train_batch train_t st batch).
Proof.
  unfold Script.train_batch.
  apply (follows_tbind Script.tag_of [] Script.batch_tags);
    [apply follows_lift | intros p _].
  apply (follows_tbind Script.tag_of [] Script.batch_tags);
    [apply follows_lift | intros t0 _].
  apply (follows_tbind Script.tag_of [] Script.batch_tags);
    [apply follows_lift | intros t1 _].
  apply (follows_tbind Script.tag_of [Script.TForward]
           [Script.TLoss; Script.TBackward; Script.TStep; Script.TZeroGrad]);
    [apply (follows_call Script.tag_of) | intros pred_y _].
  apply (follows_tbind Script.tag_of [Script.TLoss]
           [Script.TBackward; Script.TStep; Script.TZeroGrad]);
    [apply (follows_call Script.tag_of) | intros L _].
  apply (follows_tbind Script.tag_of [Script.TBackward]
           [Script.TStep; Script.TZeroGrad]);
    [apply (follows_call Script.tag_of) | intros g _].
  apply (follows_tbind Script.tag_of [Script.TStep] [Script.TZeroGrad]);
    [apply (follows_call Script.tag_of) | intros mo _].
  apply (follows_tbind Script.tag_of [Script.TZeroGrad] []);
    [apply (follows_call Script.tag_of) | intros g' _].
  apply follows_tret.
Qed.

Lemma train_batch_returns (train_t : Tensor) (st : Script.state)
    (batch : list Tensor) (tr : list Script.event) (st' : Script.state) :
  Script.train_batch train_t st batch = (tr, Ok st') ->
  exists L, Script.batch_run train_t st batch tr L st'.
Proof.
  unfold Script.train_batch. intros H.
  returned H. returned Hk. returned Hk0. returned Hk. returned Hk0.
  returned Hk. returned Hk0. returned Hk.
  apply tret_returns in Hk0. destruct Hk0 as [-> <-].
  injection Hm6 as <-.
  exists v3. unfold Script.batch_run.
  exists (fst v), (snd v), v0, v1, v2, v4, v5.
  repeat split; try assumption.
  now destruct v.
Qed.

End TrainFacts.

Section EpochFacts.
Context {FL : Float} {CL : CDELib} {RG : RandomGen} {TR : Trainer}.

(** One iteration of the DataLoader loop that returned. *)
Lemma fetch_batch_returns (train_t : Tensor) (ds : Dataset)
    (st : Script.state) (idx : list nat) (tr : list Script.event)
    (st' : Script.state) :
  (batch <~ lift (fetch (tensors ds) idx) ;;
   Script.train_batch train_t st batch) = (tr, Ok st') ->
  exists b L,
    fetch (tensors ds) idx = Ok b /\ Script.batch_run train_t st b tr L st'.
Proof.
  intros H. returned H.
  destruct (train_batch_returns _ _ _ Hk) as (L & HL).
  now exists v, L.
Qed.

Lemma batch_run_loss (train_t : Tensor) (st : Script.state)
    (b : list Tensor) (tr : list Script.event) (L : Tensor)
    (st' : Script.state) :
  Script.batch_run train_t st b tr L st' -> Script.loss st' = Some L.
Proof.
  intros (bc & by_ & t0 & t1 & p & g & mo & _ & _ & _ & _ & _ & _ & _ & _ & ->).
  reflexivity.
Qed.

Lemma train_epoch_returns (train_t : Tensor) (ds : Dataset)
    (st : Script.state) (epoch : nat) (tr : list Script.event)
    (st' : Script.state) :
  len ds = 128 ->
  Script.train_epoch train_t ds st epoch = (tr, Ok st') ->
  Script.epoch_run train_t ds epoch tr.
Proof.
  intros Hlen H. unfold Script.train_epoch in H.
  rewrite Hlen, batch_indices_128 in H.
  apply tbind_returns in H. destruct H as (trl & st4 & trp & Hloop & Hrest & ->).
  assert (Hs : snd (for_each [seq 0 32; seq 32 32; seq 64 32; seq 96 32]
                      (fun st idx =>
                         batch <~ lift (fetch (tensors ds) idx) ;;
                         Script.train_batch train_t st batch)
                      {| Script.model := Script.model st;
                         Script.grads := Script.grads st;
                         Script.optimizer := Script.optimizer st;
                         Script.loss := Script.loss st;
                         Script.rng := dataloader_iter (Script.rng st) |})
               = Ok st4) by now rewrite Hloop.
  assert (Hf := f_equal fst Hloop). cbn [fst] in Hf.
  destruct (for_each_cons_returns _ _ _ _ Hs) as (tr0 & s1 & Hb0 & Hs1 & Hf0).
  destruct (for_each_cons_returns _ _ _ _ Hs1) as (tr1 & s2 & Hb1 & Hs2 & Hf1).
  destruct (for_each_cons_returns _ _ _ _ Hs2) as (tr2 & s3 & Hb2 & Hs3 & Hf2).
  destruct (for_each_cons_returns _ _ _ _ Hs3) as (tr3 & s4 & Hb3 & Hs4 & Hf3).
  simpl in Hs4. injection Hs4 as ->.
  rewrite Hf0, Hf1, Hf2, Hf3 in Hf. simpl in Hf. rewrite app_nil_r in Hf.
  subst trl.
  apply fetch_batch_returns in Hb0, Hb1, Hb2, Hb3.
  destruct Hb0 as (b0 & L0 & F0 & R0). destruct Hb1 as (b1 & L1 & F1 & R1).
  destruct Hb2 as (b2 & L2 & F2 & R2). destruct Hb3 as (b3 & L3 & F3 & R3).
  returned Hrest. returned Hk.
  apply tret_returns in Hk0. destruct Hk0 as [-> _].
  rewrite (batch_run_loss R3) in Hm.
  unfold Script.epoch_run.
  exists b0, b1, b2, b3, tr0, tr1, tr2, tr3, L0, L1, L2, L3.
  eexists; exists s1, s2, s3, st4, v.
  repeat split; try eassumption.
  simpl. now rewrite <- !app_assoc.
Qed.

Lemma train_epoch_follows (train_t : Tensor) (ds : Dataset)
    (st : Script.state) (epoch : nat) :
  follows Script.tag_of
    (Script.epoch_tags (length (batch_indices (len ds) 32)))
    (Script.train_epoch train_t ds st epoch).
Proof.
  unfold Script.train_epoch, Script.epoch_tags.
  apply follows_tbind.
  - apply follows_for_each. intros s idx _.
    apply (follows_tbind Script.tag_of [] Script.batch_tags);
      [apply follows_lift | intros b _; apply train_batch_follows].
  - intros st4 _.
    apply (follows_tbind Script.tag_of [] [Script.TPrintEpoch]);
      [apply follows_lift | intros l _].
    apply (follows_tbind Script.tag_of [Script.TPrintEpoch] []);
      [apply (follows_call Script.tag_of) | intros u _; apply follows_tret].
Qed.

Lemma train_follows (train_t : Tensor) (ds : Dataset) (st : Script.state) :
  follows Script.tag_of
    (Script.train_tags (length (batch_indices (len ds) 32)))
    (Script.train train_t ds st).
Proof.
  unfold Script.train, Script.train_tags.
  change 100 with (length (seq 0 100)) at 1.
  apply follows_for_each. intros s e _. apply train_epoch_follows.
Qed.

End EpochFacts.

(** ** The dataset of [main] *)

Section DatasetFacts.
Context {FL : Float}.

Lemma all_size0_last (n : nat) (cs : list Tensor) (y : Tensor) :
  all_size0 n (cs ++ [y]) = Ok true -> size0 y = Ok n.
Proof.
  induction cs as [|c cs IH]; simpl.
  - destruct (size0 y) as [m|]; simpl; [|discriminate].
    destruct (n =? m) eqn:E; [|discriminate].
    apply Nat.eqb_eq in E. now subst.
  - destruct (size0 c) as [m|]; simpl; [|discriminate].
    destruct (n =? m); [exact IH | discriminate].
Qed.

(** A dataset built from coefficient tensors and 128 labels has 128
    samples. *)
Lemma TensorDataset_len (cs : list Tensor) (y : Tensor) (ds : Dataset) :
  TensorDataset (cs ++ [y]) = Ok ds ->
  shape y = [128] ->
  len ds = 128 /\ tensors ds = cs ++ [y].
Proof.
  unfold TensorDataset. intros H Sy.
  destruct (cs ++ [y]) as [|t0 ts] eqn:E; [discriminate|].
  destruct (size0 t0) as [n|]; cbn [rbind] in H; [|discriminate].
  destruct (all_size0 n (t0 :: ts)) as [[|]|] eqn:EA; cbn [rbind] in H;
    try discriminate.
  injection H as <-. cbn [len tensors]. split; [|reflexivity].
  rewrite <- E in EA. apply all_size0_last in EA.
  unfold size0 in EA. rewrite Sy in EA. now injection EA.
Qed.

Lemma last_nonempty {A : Type} (x : A) (l : list A) (d d' : A) :
  last (x :: l) d = last (x :: l) d'.
Proof.
  revert x. induction l as [|a l IH]; intros x; [reflexivity|].
  change (last (a :: l) d = last (a :: l) d'). apply IH.
Qed.

(** The last tensor of a batch holds the labels of the batch's samples. *)
Lemma fetch_labels (cs : list Tensor) (y : Tensor) (idx : list nat)
    (b : list Tensor) :
  fetch (cs ++ [y]) idx = Ok b ->
  exists batch_coeffs batch_y,
    fetch cs idx = Ok batch_coeffs
    /\ index_select0 y idx = Ok batch_y
    /\ unpack_last b = Ok (batch_coeffs, batch_y).
Proof.
  revert b. induction cs as [|c cs IH]; intros b; simpl.
  - destruct (index_select0 y idx) as [by_|]; simpl; [|discriminate].
    intros [= <-]. now exists [], by_.
  - destruct (index_select0 c idx) as [bc|]; simpl; [|discriminate].
    destruct (fetch (cs ++ [y]) idx) as [bs|] eqn:E; simpl; [|discriminate].
    intros [= <-].
    destruct (IH bs eq_refl) as (bcs & by_ & H1 & H2 & H3).
    exists (bc :: bcs), by_. rewrite H1. simpl.
    split; [reflexivity|]. split; [exact H2|].
    unfold unpack_last in *. destruct bs as [|b0 bs]; [discriminate|].
    injection H3 as <- <-.
    change (last (bc :: b0 :: bs) bc) with (last (b0 :: bs) bc).
    now rewrite (last_nonempty b0 bs bc b0).
Qed.

End DatasetFacts.

Lemma Forall2_nth_both {A B : Type} (R : A -> B -> Prop) (l1 : list A)
    (l2 : list B) (i : nat) (d1 : A) (d2 : B) :
  Forall2 R l1 l2 -> i < length l1 -> R (nth i l1 d1) (nth i l2 d2).
Proof.
  intros H. revert i. induction H as [|a b l1 l2 Hab H IH]; intros i Hi.
  - simpl in Hi. lia.
  - destruct i as [|i]; simpl; [exact Hab|]. apply IH. simpl in Hi. lia.
Qed.

Section TrainingLoop.
Context {FL : Float} {CL : CDELib} {RG : RandomGen} {TR : Trainer}.

(** The loop as it is written, on a dataset of 128 samples: the DataLoader
    gives, in every epoch, the same four batches of 32 consecutive samples
    in dataset order; the schedule is 100 epochs, each of four batch
    iterations and one print; and if the loop returns (every forward pass
    returned, which takes times that have a dimension), the value printed at
    the end of epoch e is the loss computed in that epoch's fourth, last
    batch iteration. *)
Lemma training_loop_epochs (train_t : Tensor) (cs : list Tensor)
    (y : Tensor) (ds : Dataset) (st : Script.state) :
  TensorDataset (cs ++ [y]) = Ok ds ->
  shape y = [128] ->
  batch_indices (len ds) 32 = [seq 0 32; seq 32 32; seq 64 32; seq 96 32]
  /\ follows Script.tag_of (Script.train_tags 4) (Script.train train_t ds st)
  /\ (forall st',
        snd (Script.train train_t ds st) = Ok st' ->
        exists epochs,
          fst (Script.train train_t ds st) = concat epochs
          /\ length epochs = 100
          /\ forall e, e < 100 ->
               Script.epoch_run train_t ds e (nth e epochs [])).
Proof.
  intros Hds Sy. destruct (TensorDataset_len cs y Hds Sy) as [Hlen _].
  split; [now rewrite Hlen|]. split.
  - pose proof (train_follows train_t ds st) as F.
    now rewrite Hlen in F.
  - intros st' H. unfold Script.train in *.
    destruct (for_each_returns _ _ _ H) as (trs & Ht & HF).
    exists trs. split; [exact Ht|].
    pose proof (Forall2_length HF) as HL. rewrite length_seq in HL.
    split; [now rewrite <- HL|].
    intros e He.
    pose proof (@Forall2_nth_both _ _ _ _ _ e 0 [] HF) as Hn.
    rewrite length_seq, seq_nth in Hn by exact He.
    destruct (Hn He) as (s1 & s2 & Hb).
    change (0 + e) with e in Hb. eapply train_epoch_returns; eassumption.
Qed.

End TrainingLoop.

Section ToyTraining.
#[local] Existing Instance Toy.toy_float.
#[local] Existing Instance Toy.toy_cdelib.
#[local] Existing Instance Toy.toy_random.
#[local] Existing Instance Toy.toy_trainer.

Lemma training_loop_epochs_witness :
  TensorDataset (Toy.toy_coeff128 :: [Toy.toy_labels128]) = Ok Toy.toy_dataset
  /\ shape Toy.toy_labels128 = [128]
  /\ is_ok (snd (Script.train Toy.toy_train_t Toy.toy_dataset Toy.toy_state))
     = true
  /\ follows Script.tag_of (Script.train_tags 4)
       (Script.train Toy.toy_train_t Toy.toy_dataset Toy.toy_state)
  /\ exists epochs,
       fst (Script.train Toy.toy_train_t Toy.toy_dataset Toy.toy_state)
       = concat epochs
       /\ length epochs = 100
       /\ forall e, e < 100 ->
            Script.epoch_run Toy.toy_train_t Toy.toy_dataset e
              (nth e epochs []).
Proof.
  split; [reflexivity|]. split; [reflexivity|].
  assert (K : is_ok (snd (Script.train Toy.toy_train_t Toy.toy_dataset
                            Toy.toy_state)) = true)
    by (vm_compute; reflexivity).
  split; [exact K|].
  destruct (training_loop_epochs Toy.toy_train_t [Toy.toy_coeff128]
              Toy.toy_labels128 Toy.toy_state
              (ds := Toy.toy_dataset) eq_refl eq_refl) as (_ & F & H).
  split; [exact F|].
  destruct (snd (Script.train Toy.toy_train_t Toy.toy_dataset Toy.toy_state))
    as [st'|e]; [|discriminate K].
  exact (H st' eq_refl).
Defined.

End ToyTraining.

(** ** The whole script *)

Section ScheduleMembership.
Context {E K A : Type}.

Lemma follows_in (kind : E -> K) (sched : list K) (m : traced E A) (ev : E) :
  follows kind sched m -> In ev (fst m) -> In (kind ev) sched.
Proof.
  unfold follows. intros F Hin.
  apply (in_map kind) in Hin.
  destruct (snd m).
  - now rewrite <- F.
  - destruct F as (rest & ->). apply in_or_app. now left.
Qed.

Lemma in_concat_repeat (l : list K) (n : nat) (x : K) :
  In x (concat (repeat l n)) -> In x l.
Proof.
  induction n as [|n IH]; simpl; [tauto|].
  intros H. apply in_app_or in H. tauto.
Qed.

End ScheduleMembership.

Section MainFacts.
Context {FL : Float} {CL : CDELib} {RG : RandomGen} {TR : Trainer}.

Lemma in_train_tags (nb : nat) (x : Script.tag) :
  In x (Script.train_tags nb) ->
  In x [Script.TForward; Script.TLoss; Script.TBackward; Script.TStep;
        Script.TZeroGrad; Script.TPrintEpoch].
Proof.
  unfold Script.train_tags. intros H. apply in_concat_repeat in H.
  unfold Script.epoch_tags in H. apply in_app_or in H.
  destruct H as [H|H].
  - apply in_concat_repeat in H. unfold Script.batch_tags in H.
    simpl in *. tauto.
  - simpl in *. tauto.
Qed.

Lemma evaluation_follows (model : NeuralCDE.t) (g : Generator) :
  follows Script.tag_of
    [Script.TGetData; Script.TSplineCoeffs; Script.TForward;
     Script.TPrintAccuracy]
    (Script.evaluation model g).
Proof.
  unfold Script.evaluation.
  apply (follows_tbind Script.tag_of [Script.TGetData]
           [Script.TSplineCoeffs; Script.TForward; Script.TPrintAccuracy]);
    [apply (follows_call Script.tag_of) | intros d _].
  apply (follows_tbind Script.tag_of [Script.TSplineCoeffs]
           [Script.TForward; Script.TPrintAccuracy]);
    [apply (follows_call Script.tag_of) | intros cs _].
  apply (follows_tbind Script.tag_of []
           [Script.TForward; Script.TPrintAccuracy]);
    [apply follows_lift | intros t0 _].
  apply (follows_tbind Script.tag_of []
           [Script.TForward; Script.TPrintAccuracy]);
    [apply follows_lift | intros t1 _].
  apply (follows_tbind Script.tag_of [Script.TForward]
           [Script.TPrintAccuracy]);
    [apply (follows_call Script.tag_of) | intros pred_y _].
  apply (follows_tbind Script.tag_of [] [Script.TPrintAccuracy]);
    [apply follows_lift | intros acc _].
  apply (follows_call Script.tag_of).
Qed.

(** The script as a whole: the data, the coefficients once, the loop, then
    the evaluation with its own data and coefficients. *)
Lemma main_follows (g : Generator) :
  exists nb,
    follows Script.tag_of
      ([Script.TGetData; Script.TSplineCoeffs] ++ Script.train_tags nb
       ++ [Script.TGetData; Script.TSplineCoeffs; Script.TForward;
           Script.TPrintAccuracy])
      (Script.main g).
Proof.
  unfold Script.main.
  destruct (Script.NeuralCDE_new 2 8 1 (snd (get_data g))) as [model g2].
  rewrite get_data_returns. cbn [fst snd].
  set (t := tensor1 (linspace (Rlit 0) (Rlit 99) 100)).
  match goal with
  | |- context [Ok (t, ?X0, ?y0)] => set (X := X0); set (y := y0)
  end.
  destruct (natural_cubic_spline_coeffs t X) as [cs|e] eqn:Ec.
  - destruct (TensorDataset (cs ++ [y])) as [ds|e] eqn:Ed.
    + exists (length (batch_indices (len ds) 32)).
      apply (follows_tbind Script.tag_of [Script.TGetData]);
        [apply (follows_call Script.tag_of) | intros d Hd].
      cbn [call snd] in Hd. injection Hd as <-. cbn [fst snd].
      apply (follows_tbind Script.tag_of [Script.TSplineCoeffs]);
        [apply (follows_call Script.tag_of) | intros cs' Hc].
      cbn [call snd] in Hc. rewrite Ec in Hc. injection Hc as <-.
      apply (follows_tbind Script.tag_of []);
        [apply follows_lift | intros ds' Hds].
      cbn [lift snd] in Hds. rewrite Ed in Hds. injection Hds as <-.
      apply follows_tbind; [apply train_follows|].
      intros st _. apply evaluation_follows.
    + exists 0.
      apply (follows_tbind Script.tag_of [Script.TGetData]);
        [apply (follows_call Script.tag_of) | intros d Hd].
      cbn [call snd] in Hd. injection Hd as <-. cbn [fst snd].
      apply (follows_tbind Script.tag_of [Script.TSplineCoeffs]);
        [apply (follows_call Script.tag_of) | intros cs' Hc].
      cbn [call snd] in Hc. rewrite Ec in Hc. injection Hc as <-.
      apply (follows_tbind Script.tag_of []);
        [apply follows_lift | intros ds' Hds].
      cbn [lift snd] in Hds. rewrite Ed in Hds. discriminate.
  - exists 0.
    apply (follows_tbind Script.tag_of [Script.TGetData]);
      [apply (follows_call Script.tag_of) | intros d Hd].
    cbn [call snd] in Hd. injection Hd as <-. cbn [fst snd].
    apply (follows_tbind Script.tag_of [Script.TSplineCoeffs]);
      [apply (follows_call Script.tag_of) | intros cs' Hc].
    cbn [call snd] in Hc. rewrite Ec in Hc. discriminate.
Qed.

(** The body of the loop as it is written: the calls are ordered forward,
    loss, backward, optimiser step, gradient reset (a run that raises stops
    inside this order), and an iteration that returns computed the loss
    from this batch's prediction and this batch's labels (the rows of the
    label tensor at the batch's indices), the gradients from that loss, and
    the update from those gradients.  The loop makes no other calls than
    these and the print, so the spline coefficients are not computed inside
    it. *)
Lemma batch_steps_in_order :
  (forall train_t st batch,
      follows Script.tag_of
        [Script.TForward; Script.TLoss; Script.TBackward; Script.TStep;
         Script.TZeroGrad]
        (Script.train_batch train_t st batch))
  /\ (forall train_t st batch tr st',
        Script.train_batch train_t st batch = (tr, Ok st') ->
        exists L, Script.batch_run train_t st batch tr L st')
  /\ (forall cs y idx b,
        fetch (cs ++ [y]) idx = Ok b ->
        exists batch_coeffs batch_y,
          fetch cs idx = Ok batch_coeffs
          /\ index_select0 y idx = Ok batch_y
          /\ unpack_last b = Ok (batch_coeffs, batch_y))
  /\ (forall train_t ds st,
        follows Script.tag_of
          (Script.train_tags (length (batch_indices (len ds) 32)))
          (Script.train train_t ds st))
  /\ (forall train_t ds st ev,
        In ev (fst (Script.train train_t ds st)) ->
        In (Script.tag_of ev)
           [Script.TForward; Script.TLoss; Script.TBackward; Script.TStep;
            Script.TZeroGrad; Script.TPrintEpoch])
  /\ (forall g,
        exists nb,
          follows Script.tag_of
            ([Script.TGetData; Script.TSplineCoeffs] ++ Script.train_tags nb
             ++ [Script.TGetData; Script.TSplineCoeffs; Script.TForward;
                 Script.TPrintAccuracy])
            (Script.main g)).
Proof.
  split; [exact train_batch_follows|].
  split; [exact train_batch_returns|].
  split; [exact fetch_labels|].
  split; [exact train_follows|].
  split; [|exact main_follows].
  intros train_t ds st ev Hin.
  eapply in_train_tags. eapply follows_in; [apply train_follows | exact Hin].
Qed.

End MainFacts.

(** ** The reported proportion *)

Section Accuracy.
Context {FL : Float}.

Lemma zip_with_nth_seq {X : Type} (f : f32 -> f32 -> X) (l1 l2 : list f32)
    (n : nat) (da db : f32) :
  length l1 = n -> length l2 = n ->
  map (fun i => f (nth i l1 da) (nth i l2 db)) (seq 0 n) = zip_with f l1 l2.
Proof.
  revert l2 n. induction l1 as [|a l1 IH]; intros [|b l2] n H1 H2;
    simpl in *; subst n; try discriminate; [reflexivity|].
  simpl. f_equal. rewrite <- seq_shift, map_map. apply IH; [reflexivity|].
  now injection H2.
Qed.

(** Comparing two one-dimensional tensors of one length compares them
    element by element. *)
Lemma eq_tensor_1d (a b : Tensor) (n : nat) :
  shape a = [n] -> shape b = [n] ->
  length (data a) = n -> length (data b) = n ->
  eq_tensor a b
  = Ok {| bshape := [n]; bdata := zip_with Rfeq (data a) (data b) |}.
Proof.
  intros Sa Sb La Lb. unfold eq_tensor. rewrite Sa, Sb.
  cbn [length Nat.max pad_shape Nat.sub repeat app broadcast_shapes].
  rewrite Nat.eqb_refl. cbn [orb rbind]. do 2 f_equal.
  cbn [broadcast_data numel fold_right].
  replace (if n =? 1 then n else n) with n by now destruct (n =? 1).
  rewrite <- (zip_with_nth_seq Rfeq (data a) (data b) (Rlit 0) (Rlit 0) La Lb).
  rewrite <- flat_map_singleton. apply flat_map_ext_in.
  intros i Hi. apply in_seq in Hi.
  assert (Ei : (if n =? 1 then 0 else i) = i).
  { destruct (n =? 1) eqn:E; [|reflexivity].
    apply Nat.eqb_eq in E. lia. }
  rewrite Ei.
  rewrite (slice_singletons (data a) (Rlit 0)) by lia.
  rewrite (slice_singletons (data b) (Rlit 0)) by lia.
  reflexivity.
Qed.

(** Adding up the 0/1 indicators counts the true ones. *)
Lemma sum_indicators (flags : list bool) (a : Z) :
  (0 <= a)%Z ->
  (a + Z.of_nat (length flags) <= 16777216)%Z ->
  fold_left Radd (map (fun x : bool => if x then Rlit 1 else Rlit 0) flags)
            (Rlit (inject_Z a))
  = Rlit (inject_Z (a + Z.of_nat (length (filter (fun b : bool => b) flags)))).
Proof.
  revert a. induction flags as [|b flags IH]; intros a Ha Hb; simpl.
  - now rewrite Z.add_0_r.
  - simpl length in Hb. rewrite Nat2Z.inj_succ in Hb.
    destruct b; simpl.
    + rewrite Radd_count by lia. rewrite IH by lia.
      do 2 f_equal. lia.
    + rewrite Radd_zero by lia. now rewrite IH by lia.
Qed.

End Accuracy.

Section Evaluation.
Context {FL : Float} {CL : CDELib} {RG : RandomGen} {TR : Trainer}.

Lemma Rfeq_indicator (b : bool) (v : f32) :
  Script.binary v ->
  Rfeq (if b then Rlit 1 else Rlit 0) v = Bool.eqb b (Rfeq v (Rlit 1)).
Proof.
  intros [-> | ->]; destruct b; simpl;
    now rewrite ?Rfeq_1_1, ?Rfeq_0_0, ?Rfeq_0_1, ?Rfeq_1_0.
Qed.

Lemma zip_with_indicator (ps ys : list f32) :
  Forall Script.binary ys ->
  zip_with Rfeq
    (map (fun x : bool => if x then Rlit 1 else Rlit 0)
         (map (fun v => Rgtb v (Rlit (1 # 2))) (map Rsigmoid ps)))
    ys
  = zip_with Script.agrees ps ys.
Proof.
  intros HF. revert ps. induction HF as [|y ys Hy HF IH]; intros [|p ps];
    simpl; try reflexivity.
  rewrite IH. f_equal. unfold Script.agrees. now apply Rfeq_indicator.
Qed.

(** On [n] logits and [n] labels 0/1 the reported tensor is the number of
    agreeing samples divided by [n]. *)
Lemma proportion_correct_counts (pred_y test_y : Tensor) (n : nat) :
  shape pred_y = [n] -> length (data pred_y) = n ->
  shape test_y = [n] -> length (data test_y) = n ->
  Forall Script.binary (data test_y) ->
  (Z.of_nat n <= 16777216)%Z ->
  Script.proportion_correct pred_y test_y
  = Ok {| shape := [];
          data := [Rdiv (Rlit (inject_Z
                                 (Z.of_nat (Script.count_matches pred_y test_y))))
                        (Rlit (inject_Z (Z.of_nat n)))] |}.
Proof.
  intros Sp Lp Sy Ly HB Hn. unfold Script.proportion_correct.
  rewrite (@eq_tensor_1d _ _ test_y n); cbn [to_float gt_scalar sigmoid shape
                                              data bshape bdata];
    try assumption; try (now rewrite !length_map).
  cbn [rbind]. unfold size0. rewrite Sy. cbn [rbind].
  unfold div_int, sum. cbn [shape data map]. do 3 f_equal.
  rewrite zip_with_indicator by exact HB.
  match goal with
  | |- context [fold_left Radd ?l (Rlit 0)] =>
      change (fold_left Radd l (Rlit 0))
        with (fold_left Radd l (Rlit (inject_Z 0)))
  end.
  cbn [to_float data bdata].
  rewrite sum_indicators.
  - reflexivity.
  - lia.
  - rewrite length_zip_with, Lp, Ly, Nat.min_id. lia.
Qed.

Lemma labels_binary (g : Generator) (t X y : Tensor) :
  fst (get_data g) = Ok (t, X, y) ->
  shape y = [128] /\ length (data y) = 128 /\ Forall Script.binary (data y).
Proof.
  rewrite get_data_returns. cbn [fst]. intros H.
  assert (Hy : y = {| shape := [128];
                      data := map (fun i => nth i labels (Rlit 0))
                                  (fst (draw_perm g)) |}) by congruence.
  rewrite Hy. clear H Hy. cbn [shape data].
  pose proof (draw_perm_spec g) as P.
  destruct (perm_in_range 128 P) as [Hl Hr].
  rewrite forallb_forall in Hr.
  split; [reflexivity|]. split; [now rewrite length_map|].
  apply Forall_forall. intros v Hv. apply in_map_iff in Hv.
  destruct Hv as (i & <- & Hi). apply Hr in Hi. apply Nat.ltb_lt in Hi.
  rewrite nth_labels by exact Hi. unfold Script.binary.
  destruct (i <? 64); tauto.
Qed.

Lemma evaluation_returns (model : NeuralCDE.t) (g : Generator)
    (tr : list Script.event) (u : unit) :
  Script.evaluation model g = (tr, Ok u) ->
  exists t X y coeffs t0 t1 pred_y acc,
    fst (get_data g) = Ok (t, X, y)
    /\ natural_cubic_spline_coeffs t X = Ok coeffs
    /\ getitem t 0 = Ok t0
    /\ getitem t (-1) = Ok t1
    /\ NeuralCDE.forward model coeffs t0 t1 = Ok pred_y
    /\ Script.proportion_correct (squeeze_last pred_y) y = Ok acc
    /\ tr = [Script.EvGetData g; Script.EvSplineCoeffs t X;
             Script.EvForward model coeffs t0 t1;
             Script.EvPrintAccuracy acc].
Proof.
  unfold Script.evaluation. intros H.
  returned H. returned Hk. returned Hk0. returned Hk. returned Hk0.
  returned Hk. apply call_returns in Hk0. destruct Hk0 as [-> _].
  destruct v as [[t X] y]. cbn [fst snd] in *.
  exists t, X, y, v0, v1, v2, v3, v4. repeat split; assumption.
Qed.

End Evaluation.

Section Generator_after_training.
Context {FL : Float} {CL : CDELib} {RG : RandomGen} {TR : Trainer}.

Lemma tbind_snd_returns {E A B : Type} (m : traced E A) (f : A -> traced E B)
    (b : B) :
  snd (tbind m f) = Ok b -> exists a, snd m = Ok a /\ snd (f a) = Ok b.
Proof.
  unfold tbind. destruct (snd m) as [a|e]; cbn [snd]; [|discriminate].
  intros H. now exists a.
Qed.

Lemma iter_id {M : Type} (n : nat) (x : M) : Nat.iter n (fun y => y) x = x.
Proof. induction n as [|n IH]; simpl; auto. Qed.

Lemma train_batch_rng (train_t : Tensor) (st : Script.state)
    (batch : list Tensor) (st' : Script.state) :
  snd (Script.train_batch train_t st batch) = Ok st' ->
  Script.rng st' = Script.rng st.
Proof.
  destruct (Script.train_batch train_t st batch) as [tr r] eqn:E.
  cbn [snd]. intros ->.
  destruct (train_batch_returns _ _ _ E) as (L & HL).
  destruct HL as (bc & by_ & t0 & t1 & p & g & mo & _ & _ & _ & _ & _ & _ & _
                  & _ & ->).
  reflexivity.
Qed.

Lemma train_epoch_rng (train_t : Tensor) (ds : Dataset) (st : Script.state)
    (epoch : nat) (st' : Script.state) :
  snd (Script.train_epoch train_t ds st epoch) = Ok st' ->
  Script.rng st' = dataloader_iter (Script.rng st).
Proof.
  unfold Script.train_epoch. intros H.
  apply tbind_snd_returns in H. destruct H as (st4 & Hloop & H).
  apply tbind_snd_returns in H. destruct H as (l & _ & H).
  apply tbind_snd_returns in H. destruct H as (u & _ & H).
  cbn [tret snd] in H. injection H as <-.
  assert (R : Script.rng st4
              = Nat.iter (length (batch_indices (len ds) 32)) (fun y => y)
                  (dataloader_iter (Script.rng st))).
  { apply (for_each_measure
             (fun st idx => batch <~ lift (fetch (tensors ds) idx) ;;
                            Script.train_batch train_t st batch)
             Script.rng (fun y => y)) in Hloop; [exact Hloop|].
    intros s idx s' Hb.
    apply tbind_snd_returns in Hb. destruct Hb as (b & _ & Hb).
    now apply train_batch_rng in Hb. }
  now rewrite R, iter_id.
Qed.

Lemma train_rng (train_t : Tensor) (ds : Dataset) (st st' : Script.state) :
  snd (Script.train train_t ds st) = Ok st' ->
  Script.rng st' = Nat.iter 100 dataloader_iter (Script.rng st).
Proof.
  unfold Script.train. intros H.
  apply (for_each_measure (Script.train_epoch train_t ds) Script.rng
           dataloader_iter) in H.
  - now rewrite length_seq in H.
  - intros s e s' He. now apply train_epoch_rng in He.
Qed.

(** When the training part returns, [main] goes on with the evaluation on
    the trained model and the generator as the training left it. *)
Lemma main_returns (g : Generator) (t X y : Tensor) (cs : list Tensor)
    (ds : Dataset) (st : Script.state) :
  fst (get_data g) = Ok (t, X, y) ->
  natural_cubic_spline_coeffs t X = Ok cs ->
  TensorDataset (cs ++ [y]) = Ok ds ->
  snd (Script.train t ds (Script.initial_state g)) = Ok st ->
  Script.main g
  = (Script.EvGetData g :: Script.EvSplineCoeffs t X
       :: fst (Script.train t ds (Script.initial_state g))
          ++ fst (Script.evaluation (Script.model st) (Script.rng st)),
     snd (Script.evaluation (Script.model st) (Script.rng st))).
Proof.
  intros Hd Hc Hds Hst. unfold Script.main, Script.initial_state in *.
  destruct (Script.NeuralCDE_new 2 8 1 (snd (get_data g))) as [model g2].
  rewrite Hd, tbind_call. cbn [fst snd].
  rewrite tbind_call, Hc. cbn [fst snd].
  rewrite tbind_lift, Hds.
  unfold tbind. rewrite Hst. reflexivity.
Qed.

End Generator_after_training.

Section EvaluationPhase.
Context {FL : Float} {CL : CDELib} {RG : RandomGen} {TR : Trainer}.

(** The lines after the loop as they are written: the data generator is
    called again, on the generator state the training left, then the spline
    coefficients of that dataset and the model's logits on them are
    computed and one value is printed.  If they return, this value is
    computed from the squeezed logits and the test labels; on 128 logits it
    is the number of samples whose prediction (sigmoid of the logit above
    0.5) equals the label, divided by 128. *)
Lemma evaluation_reports_accuracy :
  (forall model g,
      follows Script.tag_of
        [Script.TGetData; Script.TSplineCoeffs; Script.TForward;
         Script.TPrintAccuracy]
        (Script.evaluation model g))
  /\ (forall model g tr u,
        Script.evaluation model g = (tr, Ok u) ->
        exists t X y coeffs t0 t1 pred_y acc,
          fst (get_data g) = Ok (t, X, y)
          /\ natural_cubic_spline_coeffs t X = Ok coeffs
          /\ getitem t 0 = Ok t0
          /\ getitem t (-1) = Ok t1
          /\ NeuralCDE.forward model coeffs t0 t1 = Ok pred_y
          /\ Script.proportion_correct (squeeze_last pred_y) y = Ok acc
          /\ tr = [Script.EvGetData g; Script.EvSplineCoeffs t X;
                   Script.EvForward model coeffs t0 t1;
                   Script.EvPrintAccuracy acc])
  /\ (forall g t X y cs ds st,
        fst (get_data g) = Ok (t, X, y) ->
        natural_cubic_spline_coeffs t X = Ok cs ->
        TensorDataset (cs ++ [y]) = Ok ds ->
        snd (Script.train t ds (Script.initial_state g)) = Ok st ->
        Script.main g
        = (Script.EvGetData g :: Script.EvSplineCoeffs t X
             :: fst (Script.train t ds (Script.initial_state g))
                ++ fst (Script.evaluation (Script.model st) (Script.rng st)),
           snd (Script.evaluation (Script.model st) (Script.rng st)))
        /\ Script.rng st
           = Nat.iter 100 dataloader_iter
               (Script.rng (Script.initial_state g)))
  /\ (forall g t X y pred_y,
        fst (get_data g) = Ok (t, X, y) ->
        shape pred_y = [128] ->
        length (data pred_y) = 128 ->
        Script.proportion_correct pred_y y
        = Ok {| shape := [];
                data := [Rdiv (Rlit (inject_Z
                                       (Z.of_nat (Script.count_matches pred_y y))))
                              (Rlit (inject_Z 128))] |}).
Proof.
  split; [exact evaluation_follows|].
  split; [exact evaluation_returns|].
  split.
  - intros g t X y cs ds st Hd Hc Hds Hst. split.
    + now apply main_returns with (y := y) (cs := cs).
    + now apply train_rng in Hst.
  - intros g t X y pred_y Hd Sp Lp.
    destruct (labels_binary g Hd) as (Sy & Ly & HB).
    apply (proportion_correct_counts pred_y y Sp Lp Sy Ly HB). lia.
Qed.

(** Four logits against four labels: three predictions are right. *)
Example proportion_correct_example :
  @Script.proportion_correct Toy.toy_float
    (@mkTensor Toy.toy_float [4] [2000; -1000; 3000; -2000]%Z)
    (@mkTensor Toy.toy_float [4] [1000; 0; 0; 0]%Z)
  = Ok (@mkTensor Toy.toy_float [] [750%Z]).
Proof. reflexivity. Qed.

End EvaluationPhase.

(** * Further properties of the script *)

(** ** The vector field on inputs it accepts and rejects *)

Section CDEFuncEdges.
Context {FL : Float}.

Lemma option_eq_dec_nat (a b : option nat) : {a = b} + {a <> b}.
Proof. decide equality. apply Nat.eq_dec. Qed.

Lemma CDEFunc_forward_ok (ic hc : nat) (w1 : list (list f32)) (b1 : list f32)
    (w2 : list (list f32)) (b2 : list f32) (z : Tensor) :
  last_dim (shape z) = Some hc ->
  exists out,
    CDEFunc.forward (CDEFunc.init ic hc w1 b1 w2 b2) z = Ok out
    /\ shape out = removelast (shape z) ++ [hc; ic].
Proof.
  intros H.
  destruct (layers_ok ic w1 b1 w2 b2 z H)
    as (a1 & a2 & _ & _ & _ & S2 & _ & HL).
  exists {| shape := removelast (shape z) ++ [hc; ic]; data := data a2 |}.
  split; [|reflexivity].
  unfold CDEFunc.forward. rewrite HL. cbn [rbind CDEFunc.hidden_channels
    CDEFunc.input_channels CDEFunc.init].
  rewrite S2, removelast_last. apply view_ok.
  rewrite S2, !numel_app. simpl. lia.
Qed.

(** X1: CDEFunc.forward returns exactly on the inputs whose trailing dimension
    is hidden_channels.  Every other input, a zero-dimensional tensor
    included, is refused by the first layer with a shape error. *)
Theorem CDEFunc_forward_accepts_iff (ic hc : nat) (w1 : list (list f32))
    (b1 : list f32) (w2 : list (list f32)) (b2 : list f32) (z : Tensor) :
  let self := CDEFunc.init ic hc w1 b1 w2 b2 in
  ((exists out, CDEFunc.forward self z = Ok out)
   <-> last_dim (shape z) = Some hc)
  /\ (last_dim (shape z) <> Some hc ->
      Linear_forward (CDEFunc.linear1 self) z = Raise ShapeError
      /\ CDEFunc.forward self z = Raise ShapeError).
Proof.
  intros self.
  assert (R : last_dim (shape z) <> Some hc ->
              Linear_forward (CDEFunc.linear1 self) z = Raise ShapeError
              /\ CDEFunc.forward self z = Raise ShapeError).
  { intros N.
    assert (E : Linear_forward (CDEFunc.linear1 self) z = Raise ShapeError).
    { unfold Linear_forward. subst self. cbn [CDEFunc.linear1 CDEFunc.init
        in_features].
      destruct (last_dim (shape z)) as [d|]; [|reflexivity].
      destruct (d =? hc) eqn:Ed; [|reflexivity].
      apply Nat.eqb_eq in Ed. subst d. now contradiction N. }
    split; [exact E|].
    unfold CDEFunc.forward, CDEFunc.layers. now rewrite E. }
  split; [|exact R]. split.
  - intros (out & Ho).
    destruct (option_eq_dec_nat (last_dim (shape z)) (Some hc)) as [E|N];
      [exact E|].
    destruct (R N) as [_ HR]. congruence.
  - intros H. destruct (CDEFunc_forward_ok ic w1 b1 w2 b2 z H) as (out & Ho & _).
    now exists out.
Qed.

End CDEFuncEdges.

(** ** The model on inputs it accepts and rejects *)

Section ForwardEdges.
Context {FL : Float} {CL : CDELib}.

(** X3: the initial hidden state the model computes is an input the vector
    field accepts: for an observation with input_channels channels, the
    layer [initial] gives a state with hidden_channels channels and the
    vector field maps that state to (hidden_channels, input_channels)
    matrices, with the batch dimensions of the observation. *)
Theorem initial_state_fits_vector_field (ic hc oc : nat)
    (wi : list (list f32)) (bi : list f32)
    (w1 : list (list f32)) (b1 : list f32)
    (w2 : list (list f32)) (b2 : list f32)
    (wl : list (list f32)) (bl : list f32) (x0 : Tensor) :
  last_dim (shape x0) = Some ic ->
  let self := NeuralCDE.init ic hc oc wi bi w1 b1 w2 b2 wl bl in
  exists z0 f0,
    Linear_forward (NeuralCDE.initial self) x0 = Ok z0
    /\ shape z0 = removelast (shape x0) ++ [hc]
    /\ CDEFunc.forward (NeuralCDE.func self) z0 = Ok f0
    /\ shape f0 = removelast (shape x0) ++ [hc; ic].
Proof.
  intros H self.
  destruct (Linear_forward_ok (NeuralCDE.initial self) x0 H)
    as (z0 & Hz & Sz & _).
  cbn [NeuralCDE.initial NeuralCDE.init self out_features] in Sz.
  assert (Hl : last_dim (shape z0) = Some hc)
    by (rewrite Sz; apply last_dim_snoc).
  destruct (CDEFunc_forward_ok ic w1 b1 w2 b2 z0 Hl) as (f0 & Hf & Sf).
  exists z0, f0. repeat split; try assumption.
  now rewrite Sf, Sz, removelast_last.
Qed.

(** X4: when the spline's value at the initial time does not have
    input_channels channels, forward raises a shape error at the layer
    [initial]: the time grid is not built and the solver is not called. *)
Theorem forward_rejects_wrong_channels (ic hc oc : nat)
    (wi : list (list f32)) (bi : list f32)
    (w1 : list (list f32)) (b1 : list f32)
    (w2 : list (list f32)) (b2 : list f32)
    (wl : list (list f32)) (bl : list f32)
    (coeffs : list Tensor) (initial_t final_t : Tensor)
    (X : Spline) (x0 : Tensor) :
  NaturalCubicSpline coeffs = Ok X ->
  evaluate X initial_t = Ok x0 ->
  last_dim (shape x0) <> Some ic ->
  NeuralCDE.forward_traced
    (NeuralCDE.init ic hc oc wi bi w1 b1 w2 b2 wl bl)
    coeffs initial_t final_t
  = ([NeuralCDE.StepSpline coeffs; NeuralCDE.StepEvaluate X initial_t;
      NeuralCDE.StepInitial x0],
     Raise ShapeError).
Proof.
  intros HX Hx N. unfold NeuralCDE.forward_traced.
  rewrite tbind_call, HX. cbn [fst snd].
  rewrite tbind_call, Hx. cbn [fst snd].
  rewrite tbind_call.
  assert (E : Linear_forward
                (NeuralCDE.initial
                   (NeuralCDE.init ic hc oc wi bi w1 b1 w2 b2 wl bl)) x0
              = Raise ShapeError).
  { unfold Linear_forward. cbn [NeuralCDE.initial NeuralCDE.init in_features].
    destruct (last_dim (shape x0)) as [d|]; [|reflexivity].
    destruct (d =? ic) eqn:Ed; [|reflexivity].
    apply Nat.eqb_eq in Ed. subst d. now contradiction N. }
  now rewrite E.
Qed.

(** [z_T[:, 1]] needs two entries along dimension 1. *)
Lemma select_dim1_short (zs : Tensor) :
  match shape zs with
  | _ :: s :: _ => s <= 1
  | _ => True
  end ->
  select_dim1 zs 1 = Raise IndexError.
Proof.
  unfold select_dim1. destruct (shape zs) as [|b [|s rest]]; try reflexivity.
  intros H. destruct (1 <? s) eqn:E; [|reflexivity].
  apply Nat.ltb_lt in E. lia.
Qed.

(** X5: when the solver returns fewer than two states per sample (or a tensor
    without a time dimension), forward raises an index error at [z_T[:, 1]]
    and the readout is not applied. *)
Theorem forward_short_solution (self : NeuralCDE.t) (coeffs : list Tensor)
    (initial_t final_t : Tensor) (X : Spline) (x0 z0 grid zs : Tensor) :
  NaturalCubicSpline coeffs = Ok X ->
  evaluate X initial_t = Ok x0 ->
  Linear_forward (NeuralCDE.initial self) x0 = Ok z0 ->
  torch_cat [initial_t; final_t] = Ok grid ->
  cdeint X (CDEFunc.forward (NeuralCDE.func self)) z0 grid = Ok zs ->
  match shape zs with
  | _ :: s :: _ => s <= 1
  | _ => True
  end ->
  NeuralCDE.forward_traced self coeffs initial_t final_t
  = ([NeuralCDE.StepSpline coeffs; NeuralCDE.StepEvaluate X initial_t;
      NeuralCDE.StepInitial x0; NeuralCDE.StepCat [initial_t; final_t];
      NeuralCDE.StepCdeint X (CDEFunc.forward (NeuralCDE.func self)) z0 grid;
      NeuralCDE.StepSelect zs 1],
     Raise IndexError).
Proof.
  intros HX Hx Hz Hg Hc Hs. unfold NeuralCDE.forward_traced.
  rewrite tbind_call, HX. cbn [fst snd].
  rewrite tbind_call, Hx. cbn [fst snd].
  rewrite tbind_call, Hz. cbn [fst snd].
  rewrite tbind_call, Hg. cbn [fst snd].
  rewrite tbind_call, Hc. cbn [fst snd].
  rewrite tbind_call, (select_dim1_short zs Hs). reflexivity.
Qed.

(** X6: for any number of output channels forward returns (batch,
    output_channels); when that number is not 1 the caller's [squeeze(-1)]
    changes nothing, so the logits keep their channel dimension. *)
Theorem forward_output_any_channels (ic hc oc : nat)
    (wi : list (list f32)) (bi : list f32)
    (w1 : list (list f32)) (b1 : list f32)
    (w2 : list (list f32)) (b2 : list f32)
    (wl : list (list f32)) (bl : list f32)
    (coeffs : list Tensor) (initial_t final_t : Tensor)
    (X : Spline) (x0 z0 grid zs : Tensor) (batch : nat) :
  let self := NeuralCDE.init ic hc oc wi bi w1 b1 w2 b2 wl bl in
  NaturalCubicSpline coeffs = Ok X ->
  evaluate X initial_t = Ok x0 ->
  Linear_forward (NeuralCDE.initial self) x0 = Ok z0 ->
  torch_cat [initial_t; final_t] = Ok grid ->
  cdeint X (CDEFunc.forward (NeuralCDE.func self)) z0 grid = Ok zs ->
  shape zs = [batch; 2; hc] ->
  exists out,
    NeuralCDE.forward self coeffs initial_t final_t = Ok out
    /\ shape out = [batch; oc]
    /\ (oc <> 1 -> squeeze_last out = out).
Proof.
  intros self HX Hx Hz Hg Hc Hs.
  destruct (@select_dim1_shape _ zs batch 2 [hc] 1 Hs) as (z_T & Hsel & Hsh);
    [lia|].
  destruct (Linear_forward_ok (NeuralCDE.linear self) z_T) as (out & Ho & So & _).
  { rewrite Hsh. reflexivity. }
  rewrite Hsh in So.
  cbn [removelast app NeuralCDE.linear NeuralCDE.init self out_features] in So.
  exists out. split; [|split; [exact So|]].
  - unfold NeuralCDE.forward.
    now rewrite (forward_returns self coeffs initial_t final_t
                   HX Hx Hz Hg Hc Hsel Ho).
  - intros N. unfold squeeze_last. rewrite So.
    cbn [last_dim last].
    destruct oc as [|[|oc']]; try reflexivity. now contradiction N.
Qed.

End ForwardEdges.

(** Inputs for the edge cases, on the small runtime. *)
Module ToyEdges.
Import Toy.
#[local] Existing Instance toy_float.
#[local] Existing Instance toy_cdelib.

(** Paths with three channels, one more than the model expects. *)
Definition coeffs3 : list Tensor :=
  [mkTensor [2; 1; 3] [1000; 2000; 3000; 4000; 5000; 6000]%Z].

Definition x0_3 : Tensor := mkTensor [2; 3] [1000; 2000; 3000; 4000; 5000; 6000]%Z.

(** An empty final time: the grid then has one point only. *)
Definition empty_time : Tensor := mkTensor [0] [].

Definition grid1 : Tensor := mkTensor [1] [0%Z].

Definition zs1 : Tensor :=
  Eval vm_compute in
    match toy_cdeint toy_coeffs (CDEFunc.forward (NeuralCDE.func toy_model))
                     toy_z0 grid1 with
    | Ok z => z
    | Raise _ => toy_x0
    end.

(** The model with two output channels. *)
Definition model2 : NeuralCDE.t :=
  NeuralCDE.init 2 3 2 toy_wi toy_bi [] [] [] [] [] [].

End ToyEdges.

Section ToyForwardEdges.
#[local] Existing Instance Toy.toy_float.
#[local] Existing Instance Toy.toy_cdelib.

Lemma initial_state_fits_vector_field_witness :
  last_dim (shape Toy.toy_x0) = Some 2
  /\ exists z0 f0,
       Linear_forward (NeuralCDE.initial Toy.toy_model) Toy.toy_x0 = Ok z0
       /\ shape z0 = removelast (shape Toy.toy_x0) ++ [3]
       /\ CDEFunc.forward (NeuralCDE.func Toy.toy_model) z0 = Ok f0
       /\ shape f0 = removelast (shape Toy.toy_x0) ++ [3; 2].
Proof.
  split; [reflexivity|].
  apply (initial_state_fits_vector_field (FL := Toy.toy_float) (ic := 2) 3 1
           Toy.toy_wi Toy.toy_bi [] [] [] [] Toy.toy_wl Toy.toy_bl Toy.toy_x0).
  reflexivity.
Defined.

Lemma forward_rejects_wrong_channels_witness :
  NaturalCubicSpline ToyEdges.coeffs3 = Ok ToyEdges.coeffs3
  /\ evaluate (CDELib := Toy.toy_cdelib) ToyEdges.coeffs3 Toy.toy_t0
     = Ok ToyEdges.x0_3
  /\ last_dim (shape ToyEdges.x0_3) <> Some 2
  /\ NeuralCDE.forward_traced Toy.toy_model ToyEdges.coeffs3 Toy.toy_t0
       Toy.toy_t1
     = ([NeuralCDE.StepSpline ToyEdges.coeffs3;
         NeuralCDE.StepEvaluate (CL := Toy.toy_cdelib) ToyEdges.coeffs3
           Toy.toy_t0;
         NeuralCDE.StepInitial ToyEdges.x0_3],
        Raise ShapeError).
Proof.
  split; [reflexivity|]. split; [reflexivity|]. split; [discriminate|].
  apply (forward_rejects_wrong_channels (FL := Toy.toy_float)
           (CL := Toy.toy_cdelib) (ic := 2) 3 1
           Toy.toy_wi Toy.toy_bi [] [] [] []
           Toy.toy_wl Toy.toy_bl ToyEdges.coeffs3 Toy.toy_t0 Toy.toy_t1
           (X := ToyEdges.coeffs3) (x0 := ToyEdges.x0_3));
    [reflexivity | reflexivity | discriminate].
Defined.

Lemma forward_short_solution_witness :
  torch_cat [Toy.toy_t0; ToyEdges.empty_time] = Ok ToyEdges.grid1
  /\ shape ToyEdges.zs1 = [2; 1; 3]
  /\ snd (NeuralCDE.forward_traced Toy.toy_model Toy.toy_coeffs Toy.toy_t0
            ToyEdges.empty_time)
     = Raise IndexError.
Proof.
  split; [reflexivity|]. split; [reflexivity|].
  rewrite (forward_short_solution (FL := Toy.toy_float)
             (CL := Toy.toy_cdelib) Toy.toy_model Toy.toy_coeffs Toy.toy_t0
             ToyEdges.empty_time (X := Toy.toy_coeffs) (x0 := Toy.toy_x0)
             (z0 := Toy.toy_z0) (grid := ToyEdges.grid1) (zs := ToyEdges.zs1)
             eq_refl eq_refl eq_refl eq_refl eq_refl (le_n 1)).
  reflexivity.
Defined.

Lemma forward_output_any_channels_witness :
  shape Toy.toy_zs = [2; 2; 3]
  /\ exists out,
       NeuralCDE.forward ToyEdges.model2 Toy.toy_coeffs Toy.toy_t0 Toy.toy_t1
       = Ok out
       /\ shape out = [2; 2]
       /\ (2 <> 1 -> squeeze_last out = out).
Proof.
  split; [reflexivity|].
  apply (forward_output_any_channels (FL := Toy.toy_float)
           (CL := Toy.toy_cdelib) 2 (hc := 3) 2
           Toy.toy_wi Toy.toy_bi [] [] [] [] [] []
           Toy.toy_coeffs Toy.toy_t0 Toy.toy_t1
           (X := Toy.toy_coeffs) (x0 := Toy.toy_x0) (z0 := Toy.toy_z0)
           (grid := Toy.toy_grid) (zs := Toy.toy_zs) (batch := 2));
    reflexivity.
Defined.

End ToyForwardEdges.

(** ** What [z_T[:, 1]] keeps *)

Section FinalState.
Context {FL : Float}.

Lemma concat_pairs {A : Type} (ps : list (list A * list A)) :
  concat (flat_map (fun p => [fst p; snd p]) ps)
  = flat_map (fun p => fst p ++ snd p) ps.
Proof.
  induction ps as [|p ps IH]; simpl; [reflexivity|].
  now rewrite IH, app_nil_r || rewrite IH, <- app_assoc.
Qed.

Lemma nth_pairs_snd {A : Type} (ps : list (list A * list A)) (k : nat)
    (d : list A * list A) :
  k < length ps ->
  nth (k * 2 + 1) (flat_map (fun p => [fst p; snd p]) ps) [] = snd (nth k ps d).
Proof.
  revert k. induction ps as [|p ps IH]; intros k Hk; simpl in Hk; [lia|].
  destruct k as [|k]; [reflexivity|].
  simpl. apply IH. lia.
Qed.

(** X7: if the solver returns, for every sample, the state at the initial time
    followed by the state at the final time, then [z_T[:, 1]] is the batch
    of the final states, in the order of the samples. *)
Theorem select_keeps_final_states (zs : Tensor)
    (ps : list (list f32 * list f32)) (h : nat) :
  shape zs = [length ps; 2; h] ->
  data zs = flat_map (fun p => fst p ++ snd p) ps ->
  Forall (fun p => length (fst p) = h /\ length (snd p) = h) ps ->
  select_dim1 zs 1
  = Ok {| shape := [length ps; h]; data := flat_map snd ps |}.
Proof.
  intros S D F. unfold select_dim1. rewrite S.
  cbn [Nat.ltb Nat.leb numel fold_right]. rewrite Nat.mul_1_r.
  do 2 f_equal.
  rewrite D, <- concat_pairs.
  assert (U : Forall (fun r => length r = h)
                     (flat_map (fun p => [fst p; snd p]) ps)).
  { apply Forall_forall. intros r Hr. apply in_flat_map in Hr.
    destruct Hr as (p & Hp & Hr). rewrite Forall_forall in F.
    destruct (F p Hp) as [F1 F2].
    simpl in Hr. destruct Hr as [<- | [<- | []]]; assumption. }
  assert (L : length (flat_map (fun p : list f32 * list f32 => [fst p; snd p]) ps)
              = length ps * 2).
  { apply length_flat_map_const. reflexivity. }
  rewrite flat_map_ext_in
    with (g := fun k => snd (nth k ps ([], []))).
  - rewrite flat_map_concat_map.
    rewrite <- (map_map (fun k => nth k ps ([], [])) snd).
    now rewrite map_nth_seq_all, <- flat_map_concat_map.
  - intros k Hk. apply in_seq in Hk.
    rewrite slice_concat; [apply nth_pairs_snd; lia | exact U | lia].
Qed.

End FinalState.

Lemma select_keeps_final_states_witness :
  select_dim1
    (@mkTensor Toy.toy_float [2; 2; 3]
       [1; 2; 3; 4; 5; 6; 7; 8; 9; 10; 11; 12]%Z) 1
  = Ok (@mkTensor Toy.toy_float [2; 3] [4; 5; 6; 10; 11; 12]%Z).
Proof.
  apply (select_keeps_final_states (FL := Toy.toy_float)
           (@mkTensor Toy.toy_float [2; 2; 3]
              [1; 2; 3; 4; 5; 6; 7; 8; 9; 10; 11; 12]%Z)
           (ps := [([1; 2; 3]%Z, [4; 5; 6]%Z); ([7; 8; 9]%Z, [10; 11; 12]%Z)])
           (h := 3)).
  - reflexivity.
  - reflexivity.
  - repeat constructor.
Defined.

(** ** The dataset [get_data] returns *)

Section DatasetShape.
Context {FL : Float} {RG : RandomGen}.

Lemma combine_map_both {A B C : Type} (f : A -> B) (h : A -> C) (l : list A) :
  combine (map f l) (map h l) = map (fun a => (f a, h a)) l.
Proof. induction l as [|a l IH]; simpl; [reflexivity | now rewrite IH]. Qed.

Lemma shuffled_rows (g : Generator) :
  rows 128 200
    (flat_map
       (fun j => slice (j * 200) 200
                   (concat (map (@concat f32)
                      (trajectories (fst (draw_start g)) (fst (draw_noise g))))))
       (fst (draw_perm g)))
  = map (fun j => concat (nth j (trajectories (fst (draw_start g))
                                              (fst (draw_noise g))) []))
        (fst (draw_perm g)).
Proof.
  pose proof (draw_perm_spec g) as P.
  destruct (perm_in_range 128 P) as [Hl _].
  unfold rows.
  transitivity
    (map (fun j => concat (nth j (trajectories (fst (draw_start g))
                                               (fst (draw_noise g))) []))
         (map (fun i => nth i (fst (draw_perm g)) 0) (seq 0 128)));
    [|now rewrite <- Hl, map_nth_seq_all].
  rewrite map_map.
  apply map_ext_in. intros i Hi. apply in_seq in Hi.
  apply shuffled_sample. lia.
Qed.

(** X8: whatever the generator state, [get_data] returns 100 times, 128
    trajectories of 100 steps in 2 channels and 128 labels, each tensor
    holding as many elements as its shape says; the times do not depend on
    the generator. *)
Theorem get_data_shapes (g g' : Generator) :
  exists t X y X' y',
    fst (get_data g) = Ok (t, X, y)
    /\ fst (get_data g') = Ok (t, X', y')
    /\ shape t = [100] /\ shape X = [128; 100; 2] /\ shape y = [128]
    /\ well_formed t /\ well_formed X /\ well_formed y.
Proof.
  rewrite !get_data_returns. cbn [fst].
  do 5 eexists. split; [reflexivity|]. split; [reflexivity|].
  pose proof (draw_perm_spec g) as P.
  destruct (perm_in_range 128 P) as [Hl Hr].
  rewrite forallb_forall in Hr.
  unfold well_formed, tensor1. cbn [shape data].
  rewrite linspace_length, length_map, Hl.
  repeat split; try reflexivity.
  pose proof (length_rows 128 200
    (flat_map
       (fun j => slice (j * 200) 200
                   (concat (map (@concat f32)
                      (trajectories (fst (draw_start g)) (fst (draw_noise g))))))
       (fst (draw_perm g)))) as LR.
  rewrite flat_map_concat_map.
  rewrite length_concat_const with (w := 200).
  - now rewrite length_map, Hl.
  - apply Forall_forall. intros r Hin. apply in_map_iff in Hin.
    destruct Hin as (j & <- & Hj).
    apply Hr in Hj. apply Nat.ltb_lt in Hj.
    assert (U : Forall (fun r => length r = 200)
                  (map (@concat f32)
                     (trajectories (fst (draw_start g)) (fst (draw_noise g)))))
      by (apply trajectories_uniform;
          first [apply length_draw_start | apply length_draw_noise]).
    assert (L : length (trajectories (fst (draw_start g))
                                     (fst (draw_noise g))) = 128)
      by (apply length_trajectories;
          first [apply length_draw_start | apply length_draw_noise]).
    rewrite slice_concat with (w := 200);
      [|exact U | now rewrite length_map, L].
    rewrite Forall_forall in U. apply U. apply nth_In.
    now rewrite length_map, L.
Qed.

(** X9: the returned dataset is a rearrangement of the generated one: the pairs
    (trajectory, label) after the shuffle are the pairs before it, each as
    often as before. *)
Theorem dataset_is_rearrangement (g : Generator) :
  exists t X y,
    fst (get_data g) = Ok (t, X, y)
    /\ Permutation
         (combine (map (@concat f32)
                       (trajectories (fst (draw_start g)) (fst (draw_noise g))))
                  labels)
         (combine (rows 128 200 (data X)) (data y)).
Proof.
  rewrite get_data_returns. cbn [fst].
  do 3 eexists. split; [reflexivity|]. cbn [data].
  rewrite shuffled_rows, combine_map_both.
  pose proof (draw_perm_spec g) as P.
  set (X0 := trajectories (fst (draw_start g)) (fst (draw_noise g))).
  assert (L : length X0 = 128)
    by (apply length_trajectories;
        first [apply length_draw_start | apply length_draw_noise]).
  assert (LC : length (combine (map (@concat f32) X0) labels) = 128).
  { rewrite length_combine, length_map, L. reflexivity. }
  pose proof (@gather_permutation _ (combine (map (@concat f32) X0) labels)
                ([], Rlit 0) (fst (draw_perm g))) as G.
  rewrite LC in G. specialize (G P).
  eapply Permutation_trans; [exact G|].
  apply Permutation_refl'.
  apply map_ext_in. intros j Hj.
  rewrite combine_nth by (rewrite length_map, L; reflexivity).
  f_equal.
  change (@nil f32) with (@concat f32 []) at 1.
  apply map_nth.
Qed.

(** X10: the two times [main] hands to the model are the first and the last of
    the 100 times of the dataset, each as a tensor without dimensions. *)
Theorem model_times_are_endpoints (g : Generator) :
  exists t X y,
    fst (get_data g) = Ok (t, X, y)
    /\ data t = linspace (Rlit 0) (Rlit 99) 100
    /\ getitem t 0
       = Ok {| shape := []; data := [nth 0 (data t) (Rlit 0)] |}
    /\ getitem t (-1)
       = Ok {| shape := []; data := [nth 99 (data t) (Rlit 0)] |}.
Proof.
  rewrite get_data_returns. cbn [fst].
  do 3 eexists. split; [reflexivity|].
  unfold tensor1, getitem. cbn [shape data].
  rewrite linspace_length.
  split; [reflexivity|].
  change (numel []) with 1.
  split; cbn -[slice linspace nth]; do 2 f_equal.
  - apply (slice_singletons _ (i := 0)). rewrite linspace_length. lia.
  - apply (slice_singletons _ (i := 99)). rewrite linspace_length. lia.
Qed.

End DatasetShape.

(** ** The batches of the DataLoader *)

Section BatchPartition.

Lemma ceil_div_bounds (n bs : nat) :
  0 < bs ->
  n <= ((n + bs - 1) / bs) * bs
  /\ ((n + bs - 1) / bs - 1) * bs < n + (if n =? 0 then 1 else 0).
Proof.
  intros Hbs.
  pose proof (Nat.div_mod (n + bs - 1) bs ltac:(lia)) as D.
  pose proof (Nat.mod_upper_bound (n + bs - 1) bs ltac:(lia)) as M.
  set (q := (n + bs - 1) / bs) in *.
  set (r := (n + bs - 1) mod bs) in *.
  split; [nia|].
  destruct (n =? 0) eqn:E.
  - apply Nat.eqb_eq in E. subst n.
    assert (q = 0) by (unfold q; apply Nat.div_small; lia).
    subst q. rewrite H. simpl. lia.
  - apply Nat.eqb_neq in E. destruct q as [|q]; [lia|].
    replace (S q - 1) with q by lia. nia.
Qed.

Lemma concat_batches (n bs m : nat) :
  concat (map (fun k => seq (k * bs) (Nat.min bs (n - k * bs))) (seq 0 m))
  = seq 0 (Nat.min n (m * bs)).
Proof.
  induction m as [|m IH]; [now rewrite Nat.min_0_r|].
  rewrite seq_S, map_app, concat_app, IH. cbn [map concat Nat.add].
  rewrite app_nil_r.
  destruct (Nat.le_gt_cases n (m * bs)) as [H | H].
  - replace (n - m * bs) with 0 by lia. rewrite Nat.min_0_r. cbn [seq].
    rewrite app_nil_r. f_equal. simpl. lia.
  - replace (Nat.min n (S m * bs))
      with (Nat.min n (m * bs) + Nat.min bs (n - m * bs)) by (simpl; lia).
    rewrite seq_app. do 2 f_equal. lia.
Qed.

(** X11: one pass over the DataLoader visits every sample of the dataset exactly
    once, in dataset order: the batches joined are the indices 0 .. n-1;
    there are ceil(n / batch_size) batches, none is empty, and all but the
    last hold exactly batch_size indices. *)
Theorem batches_partition_the_dataset (n batch_size : nat) :
  0 < batch_size ->
  concat (batch_indices n batch_size) = seq 0 n
  /\ length (batch_indices n batch_size) = (n + batch_size - 1) / batch_size
  /\ Forall (fun b => 0 < length b <= batch_size) (batch_indices n batch_size)
  /\ (forall k, S k < length (batch_indices n batch_size) ->
        nth k (batch_indices n batch_size) [] = seq (k * batch_size) batch_size).
Proof.
  intros Hbs.
  destruct (ceil_div_bounds n Hbs) as [Hup Hlow].
  unfold batch_indices.
  set (m := (n + batch_size - 1) / batch_size) in *.
  split; [|split; [|split]].
  - rewrite concat_batches. f_equal. lia.
  - now rewrite length_map, length_seq.
  - apply Forall_forall. intros b Hb. apply in_map_iff in Hb.
    destruct Hb as (k & <- & Hk). apply in_seq in Hk.
    rewrite length_seq.
    assert (k * batch_size < n).
    { destruct (n =? 0) eqn:E.
      - apply Nat.eqb_eq in E. subst n.
        assert (m = 0) by (unfold m; apply Nat.div_small; lia). lia.
      - assert (k <= m - 1) by lia.
        assert (k * batch_size <= (m - 1) * batch_size)
          by (apply Nat.mul_le_mono_r; lia).
        lia. }
    lia.
  - intros k Hk. rewrite length_map, length_seq in Hk.
    rewrite nth_indep
      with (d' := (fun k => seq (k * batch_size)
                              (Nat.min batch_size (n - k * batch_size))) 0)
      by (rewrite length_map, length_seq; lia).
    rewrite (map_nth (fun k => seq (k * batch_size)
                                 (Nat.min batch_size (n - k * batch_size)))).
    rewrite seq_nth by lia. cbn [Nat.add].
    f_equal.
    assert (S k * batch_size <= (m - 1) * batch_size)
      by (apply Nat.mul_le_mono_r; lia).
    destruct (n =? 0); simpl in *; lia.
Qed.

End BatchPartition.

Lemma batches_partition_the_dataset_witness :
  concat (batch_indices 100 32) = seq 0 100
  /\ length (batch_indices 100 32) = (100 + 32 - 1) / 32
  /\ Forall (fun b => 0 < length b <= 32) (batch_indices 100 32)
  /\ (forall k, S k < length (batch_indices 100 32) ->
        nth k (batch_indices 100 32) [] = seq (k * 32) 32).
Proof. apply (@batches_partition_the_dataset 100 32). lia. Defined.

(** ** The loop on a dataset without samples *)

Section EmptyDataset.
Context {FL : Float} {CL : CDELib} {RG : RandomGen} {TR : Trainer}.

(** X12: [loss] is bound by the first batch iteration only: on a dataset without
    samples the first epoch runs no batch, and the print at its end raises
    a name error before any call was made. *)
Theorem training_needs_a_batch (train_t : Tensor) (ds : Dataset)
    (st : Script.state) :
  len ds = 0 ->
  Script.loss st = None ->
  Script.train train_t ds st = ([], Raise NameError).
Proof.
  intros Hlen Hloss. unfold Script.train.
  change (seq 0 100) with (0 :: seq 1 99). cbn [for_each].
  unfold Script.train_epoch. rewrite Hlen.
  change (batch_indices 0 32) with (@nil (list nat)).
  cbn [for_each Script.loss]. rewrite Hloss.
  reflexivity.
Qed.

End EmptyDataset.

Section ToyEmptyDataset.
#[local] Existing Instance Toy.toy_float.
#[local] Existing Instance Toy.toy_cdelib.
#[local] Existing Instance Toy.toy_random.
#[local] Existing Instance Toy.toy_trainer.

Lemma training_needs_a_batch_witness :
  Script.train Toy.toy_train_t
    {| tensors := [mkTensor [0; 2; 2] []; mkTensor [0] []]; len := 0 |}
    Toy.toy_state
  = ([], Raise NameError).
Proof.
  apply (training_needs_a_batch Toy.toy_train_t
           {| tensors := [mkTensor [0; 2; 2] []; mkTensor [0] []]; len := 0 |}
           Toy.toy_state); reflexivity.
Defined.

End ToyEmptyDataset.

(** ** Loading the batches of a dataset *)

Section BatchLoading.
Context {FL : Float}.

Lemma all_size0_Forall (n : nat) (ts : list Tensor) :
  all_size0 n ts = Ok true -> Forall (fun t => size0 t = Ok n) ts.
Proof.
  induction ts as [|t ts IH]; [constructor|].
  cbn [all_size0]. destruct (size0 t) as [m|] eqn:Et; cbn [rbind];
    [|discriminate].
  destruct (n =? m) eqn:E; [|discriminate].
  apply Nat.eqb_eq in E. subst m. intros H. constructor; auto.
Qed.

Lemma fetch_in_range (ts : list Tensor) (idx : list nat) (n : nat) :
  Forall (fun t => size0 t = Ok n) ts ->
  forallb (fun i => i <? n) idx = true ->
  exists b,
    fetch ts idx = Ok b
    /\ Forall2 (fun t bt => shape bt = length idx :: tl (shape t)) ts b.
Proof.
  intros F Hidx. induction F as [|t ts Ht F IH].
  - exists []. split; [reflexivity | constructor].
  - destruct IH as (bs & Hb & HF).
    unfold size0 in Ht. destruct (shape t) as [|m rest] eqn:St; [discriminate|].
    injection Ht as ->.
    cbn [fetch]. unfold index_select0 at 1. rewrite St, Hidx, Hb. cbn [rbind].
    eexists. split; [reflexivity|].
    constructor; [now rewrite St | exact HF].
Qed.

Lemma batch_in_range (n bs : nat) (idx : list nat) :
  In idx (batch_indices n bs) -> forallb (fun i => i <? n) idx = true.
Proof.
  unfold batch_indices. intros H. apply in_map_iff in H.
  destruct H as (k & <- & _).
  apply forallb_forall. intros i Hi. apply in_seq in Hi.
  apply Nat.ltb_lt. lia.
Qed.

(** X13: a dataset that TensorDataset accepted holds tensors of one size along
    the first dimension, and every batch of the DataLoader loads: its
    indices are inside every tensor, the batch has one tensor per tensor of
    the dataset, with as many rows as the batch has indices, and unpacking it
    into the leading tensors and the last one does not raise. *)
Theorem dataset_batches_always_load (ts : list Tensor) (ds : Dataset) :
  TensorDataset ts = Ok ds ->
  tensors ds = ts
  /\ Forall (fun t => size0 t = Ok (len ds)) ts
  /\ Forall (fun idx =>
               exists b front last_one,
                 fetch (tensors ds) idx = Ok b
                 /\ Forall2 (fun t bt => shape bt = length idx :: tl (shape t))
                            ts b
                 /\ unpack_last b = Ok (front, last_one))
            (batch_indices (len ds) 32).
Proof.
  unfold TensorDataset. intros H.
  destruct ts as [|t0 ts]; [discriminate|].
  destruct (size0 t0) as [n|]; cbn [rbind] in H; [|discriminate].
  destruct (all_size0 n (t0 :: ts)) as [[|]|] eqn:EA; cbn [rbind] in H;
    try discriminate.
  injection H as <-. cbn [len tensors].
  pose proof (all_size0_Forall _ _ EA) as F.
  split; [reflexivity|]. split; [exact F|].
  apply Forall_forall. intros idx Hidx.
  destruct (fetch_in_range idx F (batch_in_range _ _ _ Hidx)) as (b & Hb & HF).
  inversion HF as [|t bt ts' bs' Hs HF' E1 E2]. subst.
  exists (bt :: bs'), (removelast (bt :: bs')), (last (bt :: bs') bt).
  split; [exact Hb|]. split; [exact HF | reflexivity].
Qed.

End BatchLoading.

Lemma dataset_batches_always_load_witness :
  tensors Toy.toy_dataset = [Toy.toy_coeff128; Toy.toy_labels128]
  /\ Forall (fun t => @size0 Toy.toy_float t = Ok (len Toy.toy_dataset))
            [Toy.toy_coeff128; Toy.toy_labels128]
  /\ Forall (fun idx =>
               exists b front last_one,
                 fetch (tensors Toy.toy_dataset) idx = Ok b
                 /\ Forall2 (fun t bt => @shape Toy.toy_float bt
                                         = length idx :: tl (shape t))
                            [Toy.toy_coeff128; Toy.toy_labels128] b
                 /\ unpack_last b = Ok (front, last_one))
            (batch_indices (len Toy.toy_dataset) 32).
Proof.
  apply (dataset_batches_always_load (FL := Toy.toy_float)
           [Toy.toy_coeff128; Toy.toy_labels128] (ds := Toy.toy_dataset)).
  reflexivity.
Defined.

(** * The script on the times of its dataset *)

(** [main] indexes the one-dimensional times of the dataset, so the two
    times it hands to the model have no dimension, and the model joins them
    with [torch.cat]. *)

Section ScalarTimeGrid.
Context {FL : Float} {CL : CDELib}.

(** The first and the last entry of a one-dimensional tensor that has
    entries: both indexings return, and what they return has no
    dimension. *)
Lemma getitem_endpoints (t : Tensor) (n : nat) :
  shape t = [n] -> 0 < n ->
  exists t0 t1,
    getitem t 0 = Ok t0 /\ getitem t (-1) = Ok t1
    /\ shape t0 = [] /\ shape t1 = [].
Proof.
  intros Hs Hn. unfold getitem. rewrite Hs.
  change ((0 <? 0)%Z) with false. change ((-1 <? 0)%Z) with true.
  cbv iota.
  assert (E0 : ((0 <=? 0) && (0 <? Z.of_nat n))%Z = true).
  { apply andb_true_intro. split; [reflexivity | apply Z.ltb_lt; lia]. }
  assert (E1 : ((0 <=? -1 + Z.of_nat n) && (-1 + Z.of_nat n <? Z.of_nat n))%Z
               = true).
  { apply andb_true_intro. split; [apply Z.leb_le | apply Z.ltb_lt]; lia. }
  rewrite E0, E1. do 2 eexists. repeat split; reflexivity.
Qed.

(** With an initial time that has no dimension the model never reaches the
    solver: its run ends at [torch.cat] or at a call before it.  When the
    three calls before [torch.cat] return, it is [torch.cat] that raises. *)
Lemma forward_stops_at_cat (self : NeuralCDE.t) (coeffs : list Tensor)
    (initial_t final_t : Tensor) :
  shape initial_t = [] ->
  exists e,
    NeuralCDE.forward self coeffs initial_t final_t = Raise e
    /\ Forall (fun s => In (NeuralCDE.kind_of s)
                          [NeuralCDE.KSpline; NeuralCDE.KEvaluate;
                           NeuralCDE.KInitial; NeuralCDE.KCat])
              (fst (NeuralCDE.forward_traced self coeffs initial_t final_t))
    /\ (forall X x0 z0,
          NaturalCubicSpline coeffs = Ok X ->
          evaluate X initial_t = Ok x0 ->
          Linear_forward (NeuralCDE.initial self) x0 = Ok z0 ->
          e = ShapeError
          /\ NeuralCDE.forward_traced self coeffs initial_t final_t
             = ([NeuralCDE.StepSpline coeffs;
                 NeuralCDE.StepEvaluate X initial_t;
                 NeuralCDE.StepInitial x0;
                 NeuralCDE.StepCat [initial_t; final_t]],
                Raise ShapeError)).
Proof.
  intros Hs.
  assert (Hcat : torch_cat [initial_t; final_t] = Raise ShapeError)
    by (apply (torch_cat_zero_dim [initial_t; final_t] initial_t);
        [now left | exact Hs]).
  unfold NeuralCDE.forward, NeuralCDE.forward_traced.
  rewrite tbind_call.
  destruct (NaturalCubicSpline coeffs) as [X|e1] eqn:HX; cbn [fst snd].
  2:{ exists e1. split; [reflexivity|]. split; [|discriminate].
      repeat constructor; simpl; tauto. }
  rewrite tbind_call.
  destruct (evaluate X initial_t) as [x0|e2] eqn:Hx; cbn [fst snd].
  2:{ exists e2. split; [reflexivity|]. split.
      - repeat constructor; simpl; tauto.
      - intros X' x0' z0' [= <-]. congruence. }
  rewrite tbind_call.
  destruct (Linear_forward (NeuralCDE.initial self) x0) as [z0|e3] eqn:Hz;
    cbn [fst snd].
  2:{ exists e3. split; [reflexivity|]. split.
      - repeat constructor; simpl; tauto.
      - intros X' x0' z0' [= <-] Hx'.
        assert (x0' = x0) by congruence. subst x0'. congruence. }
  rewrite tbind_call, Hcat. cbn [fst snd].
  exists ShapeError. split; [reflexivity|]. split.
  - repeat constructor; simpl; tauto.
  - intros X' x0' z0' [= <-] Hx' _.
    assert (x0' = x0) by congruence. subst x0'. now split.
Qed.

End ScalarTimeGrid.

Section FirstBatch.
Context {FL : Float} {CL : CDELib} {RG : RandomGen} {TR : Trainer}.

(** A forward pass that raises ends the batch iteration: the loss, the
    gradients and the optimiser are not reached. *)
Lemma train_batch_stops (train_t : Tensor) (st : Script.state)
    (batch batch_coeffs : list Tensor) (batch_y t0 t1 : Tensor) (e : exn) :
  unpack_last batch = Ok (batch_coeffs, batch_y) ->
  getitem train_t 0 = Ok t0 ->
  getitem train_t (-1) = Ok t1 ->
  NeuralCDE.forward (Script.model st) batch_coeffs t0 t1 = Raise e ->
  Script.train_batch train_t st batch
  = ([Script.EvForward (Script.model st) batch_coeffs t0 t1], Raise e).
Proof.
  intros Hu H0 H1 Hf. unfold Script.train_batch.
  rewrite tbind_lift, Hu. cbn [fst snd].
  rewrite tbind_lift, H0, tbind_lift, H1, tbind_call, Hf.
  reflexivity.
Qed.

(** It ends the loop too, in the first batch of the first epoch. *)
Lemma train_stops (train_t : Tensor) (ds : Dataset) (st : Script.state)
    (batch batch_coeffs : list Tensor) (batch_y t0 t1 : Tensor) (e : exn) :
  len ds = 128 ->
  fetch (tensors ds) (seq 0 32) = Ok batch ->
  unpack_last batch = Ok (batch_coeffs, batch_y) ->
  getitem train_t 0 = Ok t0 ->
  getitem train_t (-1) = Ok t1 ->
  NeuralCDE.forward (Script.model st) batch_coeffs t0 t1 = Raise e ->
  Script.train train_t ds st
  = ([Script.EvForward (Script.model st) batch_coeffs t0 t1], Raise e).
Proof.
  intros Hlen Hb Hu H0 H1 Hf. unfold Script.train.
  change (seq 0 100) with (0 :: seq 1 99). cbn [for_each].
  unfold Script.train_epoch. rewrite Hlen, batch_indices_128.
  cbn [for_each]. rewrite tbind_lift, Hb.
  erewrite train_batch_stops by eassumption. reflexivity.
Qed.

Lemma TensorDataset_sizes (ts : list Tensor) (ds : Dataset) :
  TensorDataset ts = Ok ds ->
  tensors ds = ts /\ Forall (fun t => size0 t = Ok (len ds)) ts.
Proof.
  unfold TensorDataset. intros H.
  destruct ts as [|t0 ts]; [discriminate|].
  destruct (size0 t0) as [n|]; cbn [rbind] in H; [|discriminate].
  destruct (all_size0 n (t0 :: ts)) as [[|]|] eqn:EA; cbn [rbind] in H;
    try discriminate.
  injection H as <-. cbn [len tensors].
  split; [reflexivity | now apply all_size0_Forall].
Qed.

(** The first batch of a dataset of 128 samples with the labels last. *)
Lemma first_batch (cs : list Tensor) (y : Tensor) (ds : Dataset) :
  TensorDataset (cs ++ [y]) = Ok ds ->
  shape y = [128] ->
  len ds = 128
  /\ exists batch batch_coeffs batch_y,
       fetch (tensors ds) (seq 0 32) = Ok batch
       /\ fetch cs (seq 0 32) = Ok batch_coeffs
       /\ index_select0 y (seq 0 32) = Ok batch_y
       /\ unpack_last batch = Ok (batch_coeffs, batch_y).
Proof.
  intros Hds Sy.
  destruct (TensorDataset_len cs y Hds Sy) as [Hlen Ht].
  destruct (TensorDataset_sizes _ Hds) as [_ F]. rewrite Hlen in F.
  split; [exact Hlen|].
  destruct (fetch_in_range (seq 0 32) F) as (b & Hb & _); [reflexivity|].
  destruct (fetch_labels cs y (seq 0 32) Hb) as (bc & by_ & H1 & H2 & H3).
  exists b, bc, by_. rewrite Ht. now repeat split.
Qed.

End FirstBatch.

Section MainOnDataset.
Context {FL : Float} {CL : CDELib} {RG : RandomGen} {TR : Trainer}.

Lemma unpack_last_snoc (front : list Tensor) (last_one : Tensor) :
  unpack_last (front ++ [last_one]) = Ok (front, last_one).
Proof.
  unfold unpack_last.
  destruct (front ++ [last_one]) as [|t rest] eqn:E.
  - now destruct front.
  - rewrite <- E. now rewrite removelast_last, last_last.
Qed.

(** The times of the dataset are a one-dimensional tensor of 100 entries, so
    its first and its last entry have no dimension. *)
Lemma dataset_endpoints (g : Generator) :
  exists t X y t0 t1,
    fst (get_data g) = Ok (t, X, y)
    /\ shape y = [128]
    /\ getitem t 0 = Ok t0 /\ getitem t (-1) = Ok t1
    /\ shape t0 = [] /\ shape t1 = [].
Proof.
  rewrite get_data_returns. cbn [fst].
  destruct (getitem_endpoints (tensor1 (linspace (Rlit 0) (Rlit 99) 100))
              (n := 100)) as (t0 & t1 & H0 & H1 & S0 & S1).
  - unfold tensor1. cbn [shape]. now rewrite linspace_length.
  - lia.
  - do 3 eexists. exists t0, t1. repeat split; try eassumption; reflexivity.
Qed.

(** Every run of [main]: it stops at the spline coefficients, at the
    dataset, or in the forward pass of the first batch. *)
Lemma main_outcome (g : Generator) :
  exists t X y t0 t1,
    fst (get_data g) = Ok (t, X, y)
    /\ getitem t 0 = Ok t0 /\ getitem t (-1) = Ok t1
    /\ shape t0 = [] /\ shape t1 = []
    /\ (forall e, natural_cubic_spline_coeffs t X = Raise e ->
          Script.main g
          = ([Script.EvGetData g; Script.EvSplineCoeffs t X], Raise e))
    /\ (forall cs, natural_cubic_spline_coeffs t X = Ok cs ->
          (forall e, TensorDataset (cs ++ [y]) = Raise e ->
             Script.main g
             = ([Script.EvGetData g; Script.EvSplineCoeffs t X], Raise e))
          /\ (forall ds, TensorDataset (cs ++ [y]) = Ok ds ->
                len ds = 128
                /\ exists batch batch_coeffs batch_y e,
                     fetch (tensors ds) (seq 0 32) = Ok batch
                     /\ unpack_last batch = Ok (batch_coeffs, batch_y)
                     /\ NeuralCDE.forward
                          (Script.model (Script.initial_state g))
                          batch_coeffs t0 t1 = Raise e
                     /\ Script.main g
                        = ([Script.EvGetData g; Script.EvSplineCoeffs t X;
                            Script.EvForward
                              (Script.model (Script.initial_state g))
                              batch_coeffs t0 t1],
                           Raise e))).
Proof.
  destruct (dataset_endpoints g) as (t & X & y & t0 & t1 & Hd & Sy & H0 & H1
                                     & S0 & S1).
  exists t, X, y, t0, t1. repeat (split; [assumption|]).
  unfold Script.main, Script.initial_state.
  destruct (Script.NeuralCDE_new 2 8 1 (snd (get_data g))) as [model g2].
  rewrite Hd, tbind_call. cbn [fst snd Script.model].
  split.
  - intros e He. now rewrite tbind_call, He.
  - intros cs Hc. rewrite tbind_call, Hc. cbn [fst snd]. split.
    + intros e He. now rewrite tbind_lift, He.
    + intros ds Hds.
      destruct (first_batch cs y Hds Sy) as (Hlen & b & bc & by_ & Hb & _ & _ & Hu).
      destruct (forward_stops_at_cat model bc t0 t1 S0) as (e & Hf & _).
      split; [exact Hlen|]. exists b, bc, by_, e.
      repeat (split; [assumption|]).
      rewrite tbind_lift, Hds.
      erewrite train_stops by eassumption. reflexivity.
Qed.

(** C5: the loop is written for 100 epochs over the DataLoader's batches of
    32, but on the dataset [main] builds no epoch completes.  Every run of
    [main] raises; it logs at most the data generation, the spline
    coefficients and one forward pass, so no loss is computed and no epoch
    line is printed.  When the coefficients are computed and the dataset is
    built (128 samples), the run is exactly: data, coefficients, the forward
    pass of the first batch (samples 0 .. 31) on the two zero-dimensional
    times, which raises. *)
Theorem training_stops_in_first_batch (g : Generator) :
  (exists e, snd (Script.main g) = Raise e)
  /\ (forall ev, In ev (fst (Script.main g)) ->
        In (Script.tag_of ev)
           [Script.TGetData; Script.TSplineCoeffs; Script.TForward])
  /\ exists t X y t0 t1,
       fst (get_data g) = Ok (t, X, y)
       /\ getitem t 0 = Ok t0 /\ getitem t (-1) = Ok t1
       /\ shape t0 = [] /\ shape t1 = []
       /\ forall cs ds,
            natural_cubic_spline_coeffs t X = Ok cs ->
            TensorDataset (cs ++ [y]) = Ok ds ->
            len ds = 128
            /\ batch_indices (len ds) 32
               = [seq 0 32; seq 32 32; seq 64 32; seq 96 32]
            /\ exists batch batch_coeffs batch_y e,
                 fetch (tensors ds) (seq 0 32) = Ok batch
                 /\ unpack_last batch = Ok (batch_coeffs, batch_y)
                 /\ NeuralCDE.forward (Script.model (Script.initial_state g))
                      batch_coeffs t0 t1 = Raise e
                 /\ Script.main g
                    = ([Script.EvGetData g; Script.EvSplineCoeffs t X;
                        Script.EvForward
                          (Script.model (Script.initial_state g))
                          batch_coeffs t0 t1],
                       Raise e).
Proof.
  destruct (main_outcome g) as (t & X & y & t0 & t1 & Hd & H0 & H1 & S0 & S1
                                & Hraise & Hcs).
  assert (Hrun : forall cs ds,
            natural_cubic_spline_coeffs t X = Ok cs ->
            TensorDataset (cs ++ [y]) = Ok ds ->
            len ds = 128
            /\ exists batch batch_coeffs batch_y e,
                 fetch (tensors ds) (seq 0 32) = Ok batch
                 /\ unpack_last batch = Ok (batch_coeffs, batch_y)
                 /\ NeuralCDE.forward (Script.model (Script.initial_state g))
                      batch_coeffs t0 t1 = Raise e
                 /\ Script.main g
                    = ([Script.EvGetData g; Script.EvSplineCoeffs t X;
                        Script.EvForward
                          (Script.model (Script.initial_state g))
                          batch_coeffs t0 t1],
                       Raise e)).
  { intros cs ds Hc Hds. destruct (Hcs cs Hc) as [_ Hok]. now apply Hok. }
  assert (Hall : (exists e, snd (Script.main g) = Raise e)
                 /\ forall ev, In ev (fst (Script.main g)) ->
                      In (Script.tag_of ev)
                         [Script.TGetData; Script.TSplineCoeffs;
                          Script.TForward]).
  { destruct (natural_cubic_spline_coeffs t X) as [cs|e] eqn:Ec.
    - destruct (Hcs cs eq_refl) as [Hbad Hok].
      destruct (TensorDataset (cs ++ [y])) as [ds|e] eqn:Ed.
      + destruct (Hok ds eq_refl) as (_ & b & bc & by_ & e & _ & _ & _ & ->).
        split; [now exists e|].
        intros ev [<- | [<- | [<- | []]]]; simpl; tauto.
      + rewrite (Hbad e eq_refl). split; [now exists e|].
        intros ev [<- | [<- | []]]; simpl; tauto.
    - rewrite (Hraise e eq_refl). split; [now exists e|].
      intros ev [<- | [<- | []]]; simpl; tauto. }
  destruct Hall as [He Htags].
  split; [exact He|]. split; [exact Htags|].
  exists t, X, y, t0, t1. repeat (split; [assumption|]).
  intros cs ds Hc Hds. destruct (Hrun cs ds Hc Hds) as [Hlen Hex].
  split; [exact Hlen|]. split; [now rewrite Hlen | exact Hex].
Qed.

(** C6: the body of the loop is written as forward, loss, backward, step,
    gradient reset, but on the times of the dataset an iteration never gets
    past the forward pass.  For the times [get_data] returns and any state
    and batch, the iteration logs the forward pass on the two
    zero-dimensional times and raises what the forward pass raises; the
    loss, the gradients, the optimiser step and the gradient reset are not
    called.  Inside the forward pass the solver is not reached, and when the
    spline, its evaluation and the initial layer return, the exception is
    the shape error of [torch.cat]. *)
Theorem batch_iteration_stops_at_forward (g : Generator) (st : Script.state)
    (batch_coeffs : list Tensor) (batch_y : Tensor) :
  exists t X y t0 t1 e,
    fst (get_data g) = Ok (t, X, y)
    /\ getitem t 0 = Ok t0 /\ getitem t (-1) = Ok t1
    /\ shape t0 = [] /\ shape t1 = []
    /\ NeuralCDE.forward (Script.model st) batch_coeffs t0 t1 = Raise e
    /\ Script.train_batch t st (batch_coeffs ++ [batch_y])
       = ([Script.EvForward (Script.model st) batch_coeffs t0 t1], Raise e)
    /\ Forall (fun s => In (NeuralCDE.kind_of s)
                          [NeuralCDE.KSpline; NeuralCDE.KEvaluate;
                           NeuralCDE.KInitial; NeuralCDE.KCat])
              (fst (NeuralCDE.forward_traced (Script.model st)
                      batch_coeffs t0 t1))
    /\ (forall S x0 z0,
          NaturalCubicSpline batch_coeffs = Ok S ->
          evaluate S t0 = Ok x0 ->
          Linear_forward (NeuralCDE.initial (Script.model st)) x0 = Ok z0 ->
          e = ShapeError
          /\ NeuralCDE.forward_traced (Script.model st) batch_coeffs t0 t1
             = ([NeuralCDE.StepSpline batch_coeffs;
                 NeuralCDE.StepEvaluate S t0;
                 NeuralCDE.StepInitial x0;
                 NeuralCDE.StepCat [t0; t1]],
                Raise ShapeError)).
Proof.
  destruct (dataset_endpoints g) as (t & X & y & t0 & t1 & Hd & _ & H0 & H1
                                     & S0 & S1).
  destruct (forward_stops_at_cat (Script.model st) batch_coeffs t0 t1 S0)
    as (e & Hf & Hk & Hcat).
  exists t, X, y, t0, t1, e. repeat (split; [assumption|]).
  split; [|split; [exact Hk | exact Hcat]].
  apply train_batch_stops with (batch_y := batch_y); try assumption.
  apply unpack_last_snoc.
Qed.

(** C7: the lines after the loop are written as a second call of the data
    generator, the model's predictions, the threshold at 0.5 and the
    proportion of matches, but they cannot report it.  Run from any model and
    generator state they stop at the spline coefficients or at the forward
    pass on the two zero-dimensional times: the proportion is not computed
    and nothing is printed.  In [main] they are not reached: the data
    generator is called once, and no accuracy is printed. *)
Theorem evaluation_stops_at_forward :
  (forall model g,
     exists t X y t0 t1,
       fst (get_data g) = Ok (t, X, y)
       /\ getitem t 0 = Ok t0 /\ getitem t (-1) = Ok t1
       /\ shape t0 = [] /\ shape t1 = []
       /\ (forall e, natural_cubic_spline_coeffs t X = Raise e ->
             Script.evaluation model g
             = ([Script.EvGetData g; Script.EvSplineCoeffs t X], Raise e))
       /\ (forall cs, natural_cubic_spline_coeffs t X = Ok cs ->
             exists e,
               NeuralCDE.forward model cs t0 t1 = Raise e
               /\ Script.evaluation model g
                  = ([Script.EvGetData g; Script.EvSplineCoeffs t X;
                      Script.EvForward model cs t0 t1],
                     Raise e)))
  /\ (forall g,
        exists rest,
          fst (Script.main g) = Script.EvGetData g :: rest
          /\ Forall (fun ev => Script.tag_of ev <> Script.TGetData
                               /\ Script.tag_of ev <> Script.TPrintAccuracy)
                    rest).
Proof.
  split.
  - intros model g.
    destruct (dataset_endpoints g) as (t & X & y & t0 & t1 & Hd & _ & H0 & H1
                                       & S0 & S1).
    exists t, X, y, t0, t1. repeat (split; [assumption|]).
    unfold Script.evaluation. rewrite Hd, tbind_call. cbn [fst snd].
    split.
    + intros e He. now rewrite tbind_call, He.
    + intros cs Hc.
      destruct (forward_stops_at_cat model cs t0 t1 S0) as (e & Hf & _).
      exists e. split; [exact Hf|].
      now rewrite tbind_call, Hc, tbind_lift, H0, tbind_lift, H1,
                  tbind_call, Hf.
  - intros g.
    destruct (main_outcome g) as (t & X & y & t0 & t1 & Hd & H0 & H1 & S0 & S1
                                  & Hraise & Hcs).
    destruct (natural_cubic_spline_coeffs t X) as [cs|e] eqn:Ec.
    + destruct (Hcs cs eq_refl) as [Hbad Hok].
      destruct (TensorDataset (cs ++ [y])) as [ds|e] eqn:Ed.
      * destruct (Hok ds eq_refl) as (_ & b & bc & by_ & e & _ & _ & _ & ->).
        eexists. split; [reflexivity|].
        repeat constructor; discriminate.
      * rewrite (Hbad e eq_refl). eexists. split; [reflexivity|].
        repeat constructor; discriminate.
    + rewrite (Hraise e eq_refl). eexists. split; [reflexivity|].
      repeat constructor; discriminate.
Qed.

End MainOnDataset.

(** The same runs on the small runtime, from generator state 0. *)

Section ToyMain.
#[local] Existing Instance Toy.toy_float.
#[local] Existing Instance Toy.toy_cdelib.
#[local] Existing Instance Toy.toy_random.
#[local] Existing Instance Toy.toy_trainer.

Lemma training_stops_in_first_batch_witness :
  (let run := Script.main 0 in
   (map Script.tag_of (fst run), raised (snd run)))
  = ([Script.TGetData; Script.TSplineCoeffs; Script.TForward],
     Some ShapeError)
  /\ (exists e, snd (Script.main 0) = Raise e)
  /\ (forall ev, In ev (fst (Script.main 0)) ->
        In (Script.tag_of ev)
           [Script.TGetData; Script.TSplineCoeffs; Script.TForward]).
Proof.
  split; [vm_compute; reflexivity|].
  destruct (training_stops_in_first_batch (FL := Toy.toy_float) (CL := Toy.toy_cdelib)
              (RG := Toy.toy_random) (TR := Toy.toy_trainer) 0)
    as (H1 & H2 & _).
  split; [exact H1 | exact H2].
Defined.

Lemma batch_iteration_stops_at_forward_witness :
  (let run := Script.train_batch (tensor1 (linspace (Rlit 0) (Rlit 99) 100))
                Toy.toy_state (Toy.toy_coeffs ++ [@mkTensor Toy.toy_float [2] [0; 1000]%Z]) in
   (map Script.tag_of (fst run), raised (snd run)))
  = ([Script.TForward], Some ShapeError)
  /\ exists t X y t0 t1 e,
       fst (get_data 0) = Ok (t, X, y)
       /\ shape t0 = [] /\ shape t1 = []
       /\ Script.train_batch t Toy.toy_state
            (Toy.toy_coeffs ++ [@mkTensor Toy.toy_float [2] [0; 1000]%Z])
          = ([Script.EvForward (Script.model Toy.toy_state) Toy.toy_coeffs
                t0 t1],
             Raise e).
Proof.
  split; [vm_compute; reflexivity|].
  destruct (batch_iteration_stops_at_forward (FL := Toy.toy_float) (CL := Toy.toy_cdelib)
              (RG := Toy.toy_random) (TR := Toy.toy_trainer)
              0 Toy.toy_state Toy.toy_coeffs
              (@mkTensor Toy.toy_float [2] [0; 1000]%Z))
    as (t & X & y & t0 & t1 & e & Hd & _ & _ & S0 & S1 & _ & Hb & _).
  exists t, X, y, t0, t1, e. repeat split; assumption.
Defined.

Lemma evaluation_stops_at_forward_witness :
  (let run := Script.evaluation Toy.toy_model 0 in
   (map Script.tag_of (fst run), raised (snd run)))
  = ([Script.TGetData; Script.TSplineCoeffs; Script.TForward],
     Some ShapeError)
  /\ exists rest,
       fst (Script.main 0) = Script.EvGetData 0 :: rest
       /\ Forall (fun ev => Script.tag_of ev <> Script.TGetData
                            /\ Script.tag_of ev <> Script.TPrintAccuracy)
                 rest.
Proof.
  split; [vm_compute; reflexivity|].
  destruct (evaluation_stops_at_forward (FL := Toy.toy_float) (CL := Toy.toy_cdelib)
              (RG := Toy.toy_random) (TR := Toy.toy_trainer))
    as [_ H].
  exact (H 0).
Defined.

End ToyMain.
